(** * DocYapper: the conversational core of [app.py]

    A shallow embedding of the Streamlit script [src/app.py]: the document
    extractors, the agent node with its context injection, the message
    reducer of the one-node graph, and the sidebar and chat handlers that
    mutate [st.session_state].  Definitions come first, theorems after. *)

From Stdlib Require Import String Ascii.
From stdpp Require Import base option list gmap pretty.

Local Open Scope N_scope.
Local Open Scope list_scope.

(** ** Python strings

    A Python [str] is a sequence of Unicode code points; [len] counts code
    points and [s[:k]] keeps the first [k] of them. *)

Definition char := N.
Definition pystr := list char.

(** An ASCII literal of the source, as code points. *)
Definition lit (s : string) : pystr :=
  map N_of_ascii (list_ascii_of_string s).

Definition LF : char := 10.
Definition SPACE : char := 32.

(** Truthiness of a [str] and of a [list]: non-empty. *)
Definition truthy {A} (l : list A) : bool :=
  match l with [] => false | _ :: _ => true end.

(** [s.startswith(p)] and [p in s] on strings. *)
Fixpoint startswith (p s : pystr) : bool :=
  match p, s with
  | [], _ => true
  | _ :: _, [] => false
  | a :: p', b :: s' => (a =? b) && startswith p' s'
  end.

Fixpoint contains (p s : pystr) : bool :=
  startswith p s ||
  match s with
  | [] => false
  | _ :: s' => contains p s'
  end.

(** ** Messages (langchain_core.messages) *)

Inductive MessageType := HumanMessage | AIMessage | SystemMessage.

(** [msg_id] is the [id] attribute: [None] on a freshly constructed message,
    a uuid once the graph's reducer has seen it. *)
Record BaseMessage := Msg {
  kind : MessageType;
  content : pystr;
  msg_id : option N
}.

#[global] Instance MessageType_eq_dec : EqDecision MessageType.
Proof. solve_decision. Defined.

#[global] Instance BaseMessage_eq_dec : EqDecision BaseMessage.
Proof. solve_decision. Defined.

Definition isinstance (m : BaseMessage) (k : MessageType) : bool :=
  bool_decide (kind m = k).

(** ** The agent node: context injection (app.py 105-127) *)

Definition document_content : pystr := lit "document content".

(** [isinstance(m, SystemMessage) and "document content" in m.content] *)
Definition is_context (m : BaseMessage) : bool :=
  isinstance m SystemMessage && contains document_content (content m).

(** [any(... for m in messages)] *)
Definition has_context (messages : list BaseMessage) : bool :=
  existsb is_context messages.

(** [context_text[:4000]] *)
Definition context_snippet (context_text : pystr) : pystr :=
  take 4000%nat context_text.

(** The two halves of the f-string around [{context_snippet}]. *)
Definition template_head : pystr :=
  lit "You are a helpful assistant. You have access to the following document content:"
  ++ [LF; LF] ++ lit "---" ++ [LF].

Definition template_tail : pystr :=
  [LF] ++ lit "---" ++ [LF; LF]
  ++ lit "Answer the user's questions based on this document. If the answer is not in the document, say so.".

Definition system_msg (context_text : pystr) : BaseMessage :=
  Msg SystemMessage
      (template_head ++ context_snippet context_text ++ template_tail)
      None.

(** Lines 105-127 of [agent_node]: from the state's messages and the session's
    extracted text to the list handed to the model.  The source works on a
    copy ([list(state.get("messages", []))]), so the state's own list is not
    touched by [messages.insert(0, system_msg)]. *)
Definition ensureContext (messages : list BaseMessage) (context_text : pystr)
  : list BaseMessage :=
  if truthy context_text && truthy messages then
    if negb (has_context messages) then system_msg context_text :: messages
    else messages
  else messages.

(** ** Effects

    Calls that can raise return a [result]; [Raise e] carries [str(e)].
    What a handler shows or calls is recorded, in order, as a list of
    [event]s (chat bubbles are rendering only and are not recorded). *)

Inductive result (A : Type) :=
| Ok (a : A)
| Raise (e : pystr).
Arguments Ok {A} a.
Arguments Raise {A} e.

Inductive event :=
| st_warning (msg : pystr)
| st_error (msg : pystr)
| st_success (msg : pystr)
| st_info (msg : pystr)
| http_get (url : pystr)
| llm_call (messages : list BaseMessage).

(** [str(n)] for a length. *)
Definition str_of_nat (n : nat) : pystr := lit (pretty n).

(** ** More of [str]: [strip], [splitlines], [split("  ")], [join] *)

(** The code points [str.strip()] removes ([str.isspace]). *)
Definition is_whitespace (c : char) : bool :=
  ((9 <=? c) && (c <=? 13)) || ((28 <=? c) && (c <=? 32))
  || (c =? 133) || (c =? 160) || (c =? 5760)
  || ((8192 <=? c) && (c <=? 8202))
  || (c =? 8232) || (c =? 8233) || (c =? 8239) || (c =? 8287) || (c =? 12288).

Fixpoint lstrip (s : pystr) : pystr :=
  match s with
  | [] => []
  | c :: s' => if is_whitespace c then lstrip s' else s
  end.

Definition strip (s : pystr) : pystr :=
  reverse (lstrip (reverse (lstrip s))).

(** The line boundaries of [str.splitlines()]. *)
Definition is_linebreak (c : char) : bool :=
  ((10 <=? c) && (c <=? 13)) || ((28 <=? c) && (c <=? 30))
  || (c =? 133) || (c =? 8232) || (c =? 8233).

(** [cur] is the line read so far; CR LF is one boundary, and a boundary at
    the very end opens no further line. *)
Fixpoint splitlines_from (cur s : pystr) : list pystr :=
  match s with
  | [] => if truthy cur then [cur] else []
  | c :: s' =>
      if is_linebreak c then
        cur :: match s' with
               | d :: s'' =>
                   if (c =? 13) && (d =? 10) then splitlines_from [] s''
                   else splitlines_from [] s'
               | [] => []
               end
      else splitlines_from (cur ++ [c]) s'
  end.

Definition splitlines (s : pystr) : list pystr := splitlines_from [] s.

(** [s.split("  ")]: cut at each double space, left to right. *)
Fixpoint split_from (cur s : pystr) : list pystr :=
  match s with
  | [] => [cur]
  | c :: s' =>
      match s' with
      | d :: s'' =>
          if (c =? SPACE) && (d =? SPACE) then cur :: split_from [] s''
          else split_from (cur ++ [c]) s'
      | [] => [cur ++ [c]]
      end
  end.

Definition split_double_space (s : pystr) : list pystr := split_from [] s.

Fixpoint join (sep : pystr) (parts : list pystr) : pystr :=
  match parts with
  | [] => []
  | [x] => x
  | x :: rest => x ++ sep ++ join sep rest
  end.


(** ** PDF extraction (app.py 35-66)

    What PyPDF2 does with an uploaded file is an input of the model: the
    reader either raises ([pdf_file.seek(0)] or [PdfReader(pdf_file)]), or
    has no usable [pages], or yields pages; a page is [None], or raises when
    it is fetched or extracted, or returns its text. *)

Inductive page_behaviour :=
| extract_raises (e : pystr)
| extract_returns (page_text : pystr).

Inductive reader_behaviour :=
| reader_raises (e : pystr)
| reader_no_pages
| reader_pages (pages : list (option page_behaviour)).

(** A Streamlit [UploadedFile]; two of them are [==] when their [file_id]s
    are. *)
Record UploadedFile := {
  file_id : N;
  name : pystr;
  reader : reader_behaviour
}.

(** The value under [st.session_state["uploaded_pdf"]]: [None], one file, or
    a list (the uploader returns a list; its entries may be [None] as far as
    the extractor is concerned). *)
Inductive pdf_docs :=
| pdf_none
| pdf_single (f : UploadedFile)
| pdf_list (fs : list (option UploadedFile)).

Definition truthy_docs (d : pdf_docs) : bool :=
  match d with
  | pdf_none => false
  | pdf_single _ => true
  | pdf_list fs => truthy fs
  end.

(** [pdf_docs if isinstance(pdf_docs, list) else [pdf_docs]] *)
Definition files_to_process (d : pdf_docs) : list (option UploadedFile) :=
  match d with
  | pdf_none => [None]
  | pdf_single f => [Some f]
  | pdf_list fs => fs
  end.

(** The inner loop, lines 57-61; [text] is the accumulator. *)
Fixpoint extract_pages (pages : list (option page_behaviour)) (text : pystr)
  : result pystr :=
  match pages with
  | [] => Ok text
  | None :: ps => extract_pages ps text
  | Some (extract_raises e) :: _ => Raise e
  | Some (extract_returns page_text) :: ps =>
      extract_pages ps (if truthy page_text then text ++ page_text ++ [LF] else text)
  end.

(** The outer loop, lines 46-61, up to the first exception. *)
Fixpoint extract_files (files : list (option UploadedFile)) (text : pystr)
  (log : list event) : result pystr * list event :=
  match files with
  | [] => (Ok text, log)
  | None :: fs => extract_files fs text log
  | Some f :: fs =>
      match reader f with
      | reader_raises e => (Raise e, log)
      | reader_no_pages =>
          extract_files fs text
            (log ++ [st_warning (lit "Could not read pages from " ++ name f)])
      | reader_pages ps =>
          match extract_pages ps text with
          | Ok text' => extract_files fs text' log
          | Raise e => (Raise e, log)
          end
      end
  end.

(** [extract_pdf_text()], given the session's [uploaded_pdf]. *)
Definition extract_pdf_text (docs : pdf_docs) : pystr * list event :=
  if negb (truthy_docs docs) then ([], [])
  else
    match extract_files (files_to_process docs) [] [] with
    | (Ok text, log) => (strip text, log)
    | (Raise e, log) => ([], log ++ [st_error (lit "Error processing PDF: " ++ e)])
    end.

(** ** Web extraction (app.py 68-92)

    What [requests.get] yields for a URL is an input: it raises (connection
    error, timeout, ...) or returns a response with a status code, a reason
    phrase and a body; of the body only [soup.get_text()] after the removal
    of script and style elements is modelled. *)

Inductive http_outcome :=
| get_raises (e : pystr)
| get_response (status_code : N) (reason : pystr) (soup_text : pystr).

(** [Response.raise_for_status()] of the requests library: an [HTTPError] for
    a status in 400..599, nothing otherwise.  The text of the error names
    the requested URL here; requests prints the URL of the response, which
    may differ from it in form (a trailing slash, a redirect target). *)
Definition raise_for_status (url : pystr) (status_code : N) (reason : pystr)
  : result unit :=
  if (400 <=? status_code) && (status_code <? 500) then
    Raise (str_of_nat (N.to_nat status_code) ++ lit " Client Error: " ++ reason
           ++ lit " for url: " ++ url)
  else if (500 <=? status_code) && (status_code <? 600) then
    Raise (str_of_nat (N.to_nat status_code) ++ lit " Server Error: " ++ reason
           ++ lit " for url: " ++ url)
  else Ok tt.

(** Lines 85-89: strip each line, cut at double spaces, strip each phrase,
    keep the non-empty ones, join them with one space, strip. *)
Definition collapse_whitespace (text : pystr) : pystr :=
  let lines := map strip (splitlines text) in
  let chunks := map strip (concat (map split_double_space lines)) in
  strip (join [SPACE] (filter (fun chunk => truthy chunk = true) chunks)).

(** [extract_web_text()], given the session's [web_url]. *)
Definition extract_web_text (requests_get : pystr -> http_outcome)
  (url : option pystr) : pystr * list event :=
  match url with
  | None => ([], [])
  | Some url =>
      if negb (truthy url) then ([], [])
      else
        match requests_get url with
        | get_raises e =>
            ([], [http_get url; st_error (lit "Error fetching URL: " ++ e)])
        | get_response status_code reason soup_text =>
            match raise_for_status url status_code reason with
            | Raise e =>
                ([], [http_get url; st_error (lit "Error fetching URL: " ++ e)])
            | Ok _ => (collapse_whitespace soup_text, [http_get url])
            end
        end
  end.

(** ** The outside world of one script run *)

Record world := {
  (** [requests.get(url, timeout=10, headers=...)] *)
  requests_get : pystr -> http_outcome;
  (** building the client: the [st.secrets] lookup and [ChatGroq(...)] *)
  ChatGroq : result unit;
  (** [llm.invoke(messages)]: the content of the reply, or an exception *)
  llm_invoke : list BaseMessage -> result pystr
}.

(** ** The agent node (app.py 95-136) *)

(** [AIMessage(content=f"Error: {str(e)}")] *)
Definition error_msg (e : pystr) : BaseMessage :=
  Msg AIMessage (lit "Error: " ++ e) None.

(** Returns the [messages] entry of the update and what was called. *)
Definition agent_node (w : world) (context_text : pystr)
  (state_messages : list BaseMessage) : list BaseMessage * list event :=
  match ChatGroq w with
  | Raise e => ([error_msg e], [])
  | Ok _ =>
      let messages := ensureContext state_messages context_text in
      match llm_invoke w messages with
      | Ok reply => ([Msg AIMessage reply None], [llm_call messages])
      | Raise e => ([error_msg e], [llm_call messages])
      end
  end.

(** ** The graph: [add_messages] and the checkpointed thread

    [AgentState.messages] is reduced with langgraph's [add_messages]:
    messages without an id get a fresh uuid, then each right-hand message
    replaces the left-hand one with its id or is appended.  Uuids are drawn
    from a counter.  ([RemoveMessage] is not among the message types the
    script builds.) *)

Fixpoint assign_ids (uuid : N) (ms : list BaseMessage) : list BaseMessage * N :=
  match ms with
  | [] => ([], uuid)
  | m :: rest =>
      match msg_id m with
      | Some _ =>
          let '(rest', uuid') := assign_ids uuid rest in (m :: rest', uuid')
      | None =>
          let '(rest', uuid') := assign_ids (N.succ uuid) rest in
          (Msg (kind m) (content m) (Some uuid) :: rest', uuid')
      end
  end.

(** [{m.id: i for i, m in enumerate(merged)}], counting from [i]. *)
Fixpoint index_by_id (i : nat) (merged : list BaseMessage)
  (d : gmap (option N) nat) : gmap (option N) nat :=
  match merged with
  | [] => d
  | m :: rest => index_by_id (S i) rest (<[msg_id m := i]> d)
  end.

Fixpoint merge (right merged : list BaseMessage)
  (merged_by_id : gmap (option N) nat) : list BaseMessage :=
  match right with
  | [] => merged
  | m :: rest =>
      match merged_by_id !! msg_id m with
      | Some existing_idx => merge rest (<[existing_idx := m]> merged) merged_by_id
      | None =>
          merge rest (merged ++ [m]) (<[msg_id m := length merged]> merged_by_id)
      end
  end.

Definition add_messages (uuid : N) (left right : list BaseMessage)
  : list BaseMessage * N :=
  let '(left', uuid1) := assign_ids uuid left in
  let '(right', uuid2) := assign_ids uuid1 right in
  (merge right' left' (index_by_id 0 left' ∅), uuid2).

(** ** Session state (app.py 11-28, 224-226)

    [graph_state] is the [messages] channel that the graph's [InMemorySaver]
    keeps for the one thread of [config]; [next_uuid] is the uuid counter. *)

Record session_state := {
  uploaded_pdf : pdf_docs;
  web_url : option pystr;
  chat_messages : list BaseMessage;
  documents_processed : bool;
  extracted_text : pystr;
  graph_state : list BaseMessage;
  next_uuid : N
}.

Definition initial_state : session_state := {|
  uploaded_pdf := pdf_none;
  web_url := None;
  chat_messages := [];
  documents_processed := false;
  extracted_text := [];
  graph_state := [];
  next_uuid := 0
|}.

(** [st.session_state.graph.invoke({"messages": input}, config)]: the input
    is reduced into the saved channel, the agent node runs on the result, and
    its update is reduced in; the returned [messages] are the channel. *)
Definition graph_invoke (w : world) (s : session_state)
  (input : list BaseMessage) : session_state * list BaseMessage * list event :=
  let '(state, uuid1) := add_messages (next_uuid s) (graph_state s) input in
  let '(update, log) := agent_node w (extracted_text s) state in
  let '(state', uuid2) := add_messages uuid1 state update in
  ({| uploaded_pdf := uploaded_pdf s;
      web_url := web_url s;
      chat_messages := chat_messages s;
      documents_processed := documents_processed s;
      extracted_text := extracted_text s;
      graph_state := state';
      next_uuid := uuid2 |},
   state', log).

(** ** The sidebar (app.py 150-211) *)

(** [==] on what [uploaded_pdf] can hold. *)
Definition file_eqb (a b : option UploadedFile) : bool :=
  match a, b with
  | None, None => true
  | Some x, Some y => file_id x =? file_id y
  | _, _ => false
  end.

Fixpoint files_eqb (xs ys : list (option UploadedFile)) : bool :=
  match xs, ys with
  | [], [] => true
  | x :: xs', y :: ys' => file_eqb x y && files_eqb xs' ys'
  | _, _ => false
  end.

Definition pdf_docs_eqb (a b : pdf_docs) : bool :=
  match a, b with
  | pdf_none, pdf_none => true
  | pdf_single x, pdf_single y => file_id x =? file_id y
  | pdf_list xs, pdf_list ys => files_eqb xs ys
  | _, _ => false
  end.

(** The five assignments shared by lines 160-164, 181-185 and 201-205. *)
Definition set_source (pdf : pdf_docs) (url : option pystr)
  (s : session_state) : session_state := {|
  uploaded_pdf := pdf;
  web_url := url;
  chat_messages := [];
  documents_processed := false;
  extracted_text := [];
  graph_state := graph_state s;
  next_uuid := next_uuid s
|}.

(** Lines 170-171 and 191-192. *)
Definition set_extracted (text : pystr) (s : session_state) : session_state := {|
  uploaded_pdf := uploaded_pdf s;
  web_url := web_url s;
  chat_messages := chat_messages s;
  documents_processed := true;
  extracted_text := text;
  graph_state := graph_state s;
  next_uuid := next_uuid s
|}.

Definition set_chat_messages (ms : list BaseMessage) (s : session_state)
  : session_state := {|
  uploaded_pdf := uploaded_pdf s;
  web_url := web_url s;
  chat_messages := ms;
  documents_processed := documents_processed s;
  extracted_text := extracted_text s;
  graph_state := graph_state s;
  next_uuid := next_uuid s
|}.

Definition extracted_msg (text : pystr) : pystr :=
  [9989] ++ lit " Extracted " ++ str_of_nat (length text) ++ lit " characters".

(** Lines 158-174: the PDF branch, given what the uploader returned. *)
Definition pdf_upload_branch (uploaded : pdf_docs) (s : session_state)
  : session_state * list event :=
  if truthy_docs uploaded then
    let s1 :=
      if negb (pdf_docs_eqb (uploaded_pdf s) uploaded)
      then set_source uploaded None s else s in
    if negb (documents_processed s1) then
      let '(text, log) := extract_pdf_text (uploaded_pdf s1) in
      if truthy text
      then (set_extracted text s1, log ++ [st_success (extracted_msg text)])
      else (s1, log ++ [st_error (lit "Failed to extract text from PDF")])
    else (s1, [])
  else (s, []).

(** Lines 179-195: the URL branch, given the text field and the button. *)
Definition web_url_branch (w : world) (url : pystr) (load_url : bool)
  (s : session_state) : session_state * list event :=
  if truthy url && load_url then
    let s1 :=
      if negb (bool_decide (web_url s = Some url))
      then set_source pdf_none (Some url) s else s in
    if negb (documents_processed s1) then
      let '(text, log) := extract_web_text (requests_get w) (web_url s1) in
      if truthy text
      then (set_extracted text s1, log ++ [st_success (extracted_msg text)])
      else (s1, log ++ [st_error (lit "Failed to fetch web page")])
    else (s1, [])
  else (s, []).

(** ** The chat input (app.py 242-278) *)

Definition load_first_msg : pystr :=
  [9888; 65039] ++ lit " Please upload a PDF or load a web URL first.".

(** What the handler tests before a turn: [st.session_state.extracted_text]
    is non-empty. *)
Definition ready (s : session_state) : bool := truthy (extracted_text s).

(** Returns the new state, what was shown and called, and whether the run
    ended in [st.rerun()].  The handler's own [except] is never entered:
    [agent_node] catches every exception and the reducer raises none. *)
Definition chat_input (w : world) (prompt : option pystr) (s : session_state)
  : session_state * list event * bool :=
  match prompt with
  | None => (s, [], false)
  | Some prompt =>
      if negb (truthy prompt) then (s, [], false)
      else if negb (truthy (extracted_text s)) then
        (s, [st_warning load_first_msg], false)
      else
        let user_msg := Msg HumanMessage prompt None in
        let s1 := set_chat_messages (chat_messages s ++ [user_msg]) s in
        let '(s2, result_messages, log) := graph_invoke w s1 (chat_messages s1) in
        (set_chat_messages result_messages s2, log, true)
  end.

(** ** One run of the script, top to bottom *)

Inductive source_choice := PDF_Upload | Web_URL.

Record widgets := {
  doc_type : source_choice;
  file_uploader : list UploadedFile;
  text_input : pystr;
  load_url_clicked : bool;
  clear_document_clicked : bool;
  new_chat_clicked : bool;
  chat_prompt : option pystr
}.

Definition loaded_msg (text : pystr) : pystr :=
  [128196] ++ lit " Document loaded (" ++ str_of_nat (length text) ++ lit " chars)".

(** One pass; the flag says that it stopped at an [st.rerun()]. *)
Definition script_pass (w : world) (ws : widgets) (s : session_state)
  : session_state * list event * bool :=
  let '(s1, log1) :=
    match doc_type ws with
    | PDF_Upload => pdf_upload_branch (pdf_list (map Some (file_uploader ws))) s
    | Web_URL => web_url_branch w (text_input ws) (load_url_clicked ws) s
    end in
  let log2 :=
    if truthy (extracted_text s1)
    then log1 ++ [st_info (loaded_msg (extracted_text s1))] else log1 in
  if truthy (extracted_text s1) && clear_document_clicked ws then
    (set_source pdf_none None s1, log2, true)
  else if new_chat_clicked ws then
    (set_chat_messages [] s1, log2, true)
  else
    let '(s2, log3, rerun) := chat_input w (chat_prompt ws) s1 in
    (s2, log2 ++ log3, rerun).

(** After [st.rerun()] the buttons read false and the chat input is empty;
    the uploader, the radio and the text field keep their values. *)
Definition after_rerun (ws : widgets) : widgets := {|
  doc_type := doc_type ws;
  file_uploader := file_uploader ws;
  text_input := text_input ws;
  load_url_clicked := false;
  clear_document_clicked := false;
  new_chat_clicked := false;
  chat_prompt := None
|}.

(** A user action: the pass it triggers and, after [st.rerun()], the pass
    that follows (which cannot rerun again). *)
Definition script_run (w : world) (ws : widgets) (s : session_state)
  : session_state * list event :=
  let '(s1, log1, rerun) := script_pass w ws s in
  if rerun then
    let '(s2, log2, _) := script_pass w (after_rerun ws) s1 in (s2, log1 ++ log2)
  else (s1, log1).

Fixpoint session (steps : list (world * widgets)) (s : session_state)
  : session_state :=
  match steps with
  | [] => s
  | (w, ws) :: rest => session rest (fst (script_run w ws s))
  end.

(** ** Reference notions used by the statements *)

(** The texts a best-effort extractor would keep: the non-empty texts of the
    pages that can be extracted, of the files that can be read.  This is the
    contract of the PDF extractor in the specification's words, to be
    compared with [extract_pdf_text]. *)
Definition page_texts (pages : list (option page_behaviour)) : list pystr :=
  pages ≫= fun p =>
    match p with
    | Some (extract_returns page_text) => if truthy page_text then [page_text] else []
    | _ => []
    end.

Definition file_texts (f : option UploadedFile) : list pystr :=
  match f with
  | Some f =>
      match reader f with
      | reader_pages pages => page_texts pages
      | _ => []
      end
  | None => []
  end.

Definition extractable_texts (files : list (option UploadedFile)) : list pystr :=
  files ≫= file_texts.

Definition best_effort_text (docs : pdf_docs) : pystr :=
  if truthy_docs docs then join [LF] (extractable_texts (files_to_process docs))
  else [].

(** Some page of the file, or the file itself, raises when it is read. *)
Definition page_raises (p : option page_behaviour) : bool :=
  match p with
  | Some (extract_raises _) => true
  | _ => false
  end.

Definition file_raises (f : option UploadedFile) : bool :=
  match f with
  | Some f =>
      match reader f with
      | reader_raises _ => true
      | reader_no_pages => false
      | reader_pages pages => existsb page_raises pages
      end
  | None => false
  end.


(** The flags of a session agree: a document counts as processed exactly
    when some text is stored, and there is no conversation without text. *)
Definition consistent (s : session_state) : Prop :=
  documents_processed s = truthy (extracted_text s)
  /\ (extracted_text s = [] -> chat_messages s = []).

(** Everything shown and called during a session, in order. *)
Fixpoint session_log (steps : list (world * widgets)) (s : session_state)
  : list event :=
  match steps with
  | [] => []
  | (w, ws) :: rest =>
      snd (script_run w ws s) ++ session_log rest (fst (script_run w ws s))
  end.

(** A message list has its system-context message in place: one at index 0
    and no other. *)
Definition context_count (messages : list BaseMessage) : nat :=
  length (filter (fun m => is_context m = true) messages).

Definition context_in_place (messages : list BaseMessage) : Prop :=
  (exists m, messages !! 0%nat = Some m /\ is_context m = true)
  /\ context_count messages = 1%nat.

(** Neither the conversation nor the saved channel holds a system-context
    message. *)
Definition context_free (s : session_state) : Prop :=
  has_context (chat_messages s) = false /\ has_context (graph_state s) = false.

(** The uuid counter is ahead of every id in use. *)
Definition id_below (n : N) (m : BaseMessage) : Prop :=
  match msg_id m with
  | Some k => k < n
  | None => True
  end.

Definition fresh_ids (s : session_state) : Prop :=
  Forall (id_below (next_uuid s)) (graph_state s)
  /\ Forall (id_below (next_uuid s)) (chat_messages s).

Definition has_id_below (n : N) (m : BaseMessage) : Prop :=
  exists k, msg_id m = Some k /\ k < n.

(** A property of messages that does not look at ids. *)
Definition id_blind (P : BaseMessage -> Prop) : Prop :=
  forall m u, P m -> P (Msg (kind m) (content m) (Some u)).

(** The channel the agent node sees in a turn: the saved channel with the
    conversation and the new user message reduced in; and the uuid counter
    at that point. *)
Definition turn_input (prompt : pystr) (s : session_state) : list BaseMessage :=
  chat_messages s ++ [Msg HumanMessage prompt None].

Definition turn_state (prompt : pystr) (s : session_state) : list BaseMessage :=
  fst (add_messages (next_uuid s) (graph_state s) (turn_input prompt s)).

Definition turn_uuid (prompt : pystr) (s : session_state) : N :=
  snd (add_messages (next_uuid s) (graph_state s) (turn_input prompt s)).

(** An event other than a model call. *)
Definition no_llm_call (ev : event) : Prop :=
  match ev with
  | llm_call _ => False
  | _ => True
  end.

(** What the sidebar may do to the conversation and never does to the graph:
    [s'] keeps the saved channel and the uuid counter of [s], and its
    conversation is that of [s] or empty. *)
Definition same_channel (s s' : session_state) : Prop :=
  graph_state s' = graph_state s
  /\ next_uuid s' = next_uuid s
  /\ (chat_messages s' = chat_messages s \/ chat_messages s' = []).

(** A model call, if the event is one, got its context in place. *)
Definition call_in_place (ev : event) : Prop :=
  match ev with
  | llm_call messages => context_in_place messages
  | _ => True
  end.

(** ** The chat display (app.py 232-239)

    The loop over [st.session_state.chat_messages]: a human message, and a
    system message that does not carry the document, is written in a user
    bubble; an assistant message in an assistant bubble; the system-context
    message is skipped. *)

Inductive role := user | assistant.

Definition chat_bubble (msg : BaseMessage) : option (role * pystr) :=
  if isinstance msg HumanMessage || isinstance msg SystemMessage then
    if negb (isinstance msg SystemMessage
             && contains document_content (content msg))
    then Some (user, content msg)
    else None
  else if isinstance msg AIMessage then Some (assistant, content msg)
  else None.

Definition display_chat (messages : list BaseMessage) : list (role * pystr) :=
  omap chat_bubble messages.

(** ** Further notions used by the statements *)

(** A string that neither starts nor ends with whitespace. *)
Definition starts_clean (s : pystr) : Prop :=
  match s with
  | [] => True
  | c :: _ => is_whitespace c = false
  end.

Definition stripped (s : pystr) : Prop :=
  starts_clean s /\ starts_clean (reverse s).

(** No two consecutive spaces. *)
Fixpoint single_spaced (s : pystr) : bool :=
  match s with
  | [] => true
  | a :: t =>
      match t with
      | b :: _ => negb ((a =? SPACE) && (b =? SPACE))
      | [] => true
      end && single_spaced t
  end.

Definition no_linebreak (s : pystr) : Prop :=
  Forall (fun c => is_linebreak c = false) s.

Definition all_whitespace (s : pystr) : Prop :=
  Forall (fun c => is_whitespace c = true) s.

(** The warnings of an extraction in which nothing raises: one for each file
    whose reader has no pages, in upload order. *)
Definition no_pages_warnings (files : list (option UploadedFile)) : list event :=
  files ≫= fun f =>
    match f with
    | Some f =>
        match reader f with
        | reader_no_pages =>
            [st_warning (lit "Could not read pages from " ++ name f)]
        | _ => []
        end
    | None => []
    end.

(** The conversation agrees with the thread saved in the graph: it is that
    thread, or it has just been emptied; the saved messages carry pairwise
    distinct ids handed out by the counter. *)
Definition synced (s : session_state) : Prop :=
  (chat_messages s = graph_state s \/ chat_messages s = [])
  /\ Forall (has_id_below (next_uuid s)) (graph_state s)
  /\ NoDup (map msg_id (graph_state s)).

(** Question, answer, question, answer, ... *)
Fixpoint alternating (messages : list BaseMessage) : Prop :=
  match messages with
  | [] => True
  | question :: rest =>
      match rest with
      | answer :: rest' =>
          kind question = HumanMessage /\ kind answer = AIMessage
          /\ alternating rest'
      | [] => False
      end
  end.

(** The bubble of a message of a conversation without system messages. *)
Definition bubble_of (msg : BaseMessage) : role * pystr :=
  (match kind msg with AIMessage => assistant | _ => user end, content msg).

(** What the assistant message of a turn says, given the list handed to the
    model. *)
Definition answer_content (w : world) (handed : list BaseMessage) : pystr :=
  match ChatGroq w with
  | Raise e => lit "Error: " ++ e
  | Ok _ =>
      match llm_invoke w handed with
      | Ok reply => reply
      | Raise e => lit "Error: " ++ e
      end
  end.

(** Widgets that leave the sidebar idle: the URL source is selected and
    neither the load nor the clear button is pressed. *)
Definition quiet_sidebar (ws : widgets) : Prop :=
  doc_type ws = Web_URL
  /\ load_url_clicked ws = false
  /\ clear_document_clicked ws = false.

(** A phrase as [collapse_whitespace] keeps it. *)
Definition clean_chunk (chunk : pystr) : Prop :=
  chunk <> [] /\ stripped chunk /\ single_spaced chunk = true /\ no_linebreak chunk.

(** At most one source is stored. *)
Definition one_source (s : session_state) : Prop :=
  uploaded_pdf s = pdf_none \/ web_url s = None.

(** A model call, if the event is one, carries a system-context message. *)
Definition call_with_context (ev : event) : Prop :=
  match ev with
  | llm_call messages => has_context messages = true
  | _ => True
  end.

(** ** Concrete inputs for the examples *)

Definition q1_text : pystr := lit "Revenue grew 10% in Q1.".

Definition report_pdf : UploadedFile := {|
  file_id := 1;
  name := lit "report.pdf";
  reader := reader_pages [Some (extract_returns q1_text)]
|}.

Definition broken_pdf : UploadedFile := {|
  file_id := 2;
  name := lit "broken.pdf";
  reader := reader_raises (lit "EOF marker not found")
|}.

Definition report_url : pystr := lit "https://example.com/report".

(** A world where the page exists and the model answers. *)
Definition world_up : world := {|
  requests_get := fun _ => get_response 200 (lit "OK") q1_text;
  ChatGroq := Ok tt;
  llm_invoke := fun _ => Ok (lit "Revenue grew 10%.")
|}.

(** A world where the page is gone and the model cannot be reached. *)
Definition world_down : world := {|
  requests_get := fun _ => get_response 404 (lit "Not Found") (lit "Not Found");
  ChatGroq := Ok tt;
  llm_invoke := fun _ => Raise (lit "Connection error.")
|}.


(** The uploader holds [report_pdf]; the user may also type a prompt. *)
Definition with_report (prompt : option pystr) : widgets := {|
  doc_type := PDF_Upload;
  file_uploader := [report_pdf];
  text_input := [];
  load_url_clicked := false;
  clear_document_clicked := false;
  new_chat_clicked := false;
  chat_prompt := prompt
|}.

Definition memo_pdf : UploadedFile := {|
  file_id := 3;
  name := lit "memo.pdf";
  reader := reader_pages [Some (extract_returns (lit "Costs fell."))]
|}.

Definition q1_question : pystr := lit "What was Q1 revenue growth?".

(** The session after [report_pdf] was uploaded and one question asked. *)
Definition after_one_turn : session_state :=
  session [(world_up, with_report (Some q1_question))] initial_state.

(** Two consecutive questions on the uploaded [report_pdf]. *)
Definition q2_question : pystr := lit "And in Q2?".

Definition two_turns : list (world * widgets) :=
  [(world_up, with_report (Some q1_question));
   (world_up, with_report (Some q2_question))].

(** The URL source is selected and its field left alone; the user may press
    New Chat, press Clear Document, or type a prompt. *)
Definition url_idle (new_chat clear : bool) (prompt : option pystr) : widgets := {|
  doc_type := Web_URL;
  file_uploader := [];
  text_input := report_url;
  load_url_clicked := false;
  clear_document_clicked := clear;
  new_chat_clicked := new_chat;
  chat_prompt := prompt
|}.

(** A PDF whose only page holds whitespace, and one without pages. *)
Definition blank_pdf : UploadedFile := {|
  file_id := 4;
  name := lit "blank.pdf";
  reader := reader_pages [Some (extract_returns [SPACE; LF])]
|}.

Definition scan_pdf : UploadedFile := {|
  file_id := 5;
  name := lit "scan.pdf";
  reader := reader_no_pages
|}.

(** A world where the page is there but holds no text. *)
Definition world_blank : world := {|
  requests_get := fun _ => get_response 200 (lit "OK") [LF; SPACE; SPACE; 9; LF];
  ChatGroq := Ok tt;
  llm_invoke := fun _ => Ok (lit "Revenue grew 10%.")
|}.

(** The uploader now holds [memo_pdf]; the user may also type a prompt. *)
Definition with_memo (prompt : option pystr) : widgets := {|
  doc_type := PDF_Upload;
  file_uploader := [memo_pdf];
  text_input := [];
  load_url_clicked := false;
  clear_document_clicked := false;
  new_chat_clicked := false;
  chat_prompt := prompt
|}.

(** The session [after_one_turn], after the user replaced the upload by
    [memo_pdf]. *)
Definition after_switch : session_state :=
  session [(world_up, with_memo None)] after_one_turn.

(** * Properties *)

(** ** Strings *)

Lemma startswith_app (p s : pystr) : startswith p (p ++ s) = true.
Proof.
  induction p as [|a p IH]; simpl; [done|].
  by rewrite N.eqb_refl, IH.
Qed.

Lemma contains_infix (p a b : pystr) : contains p (a ++ p ++ b) = true.
Proof.
  induction a as [|c a IH]; simpl.
  - destruct (p ++ b) eqn:E; simpl; rewrite <- E, startswith_app; done.
  - rewrite IH. apply orb_true_r.
Qed.

Lemma truthy_true {A} (l : list A) : truthy l = true <-> l <> [].
Proof. destruct l; simpl; split; intros; congruence. Qed.

Lemma truthy_false {A} (l : list A) : truthy l = false <-> l = [].
Proof. destruct l; simpl; split; intros; congruence. Qed.

(** ** Context injection *)

Lemma template_head_mentions :
  exists a b, template_head = a ++ document_content ++ b.
Proof.
  exists (lit "You are a helpful assistant. You have access to the following "),
    ([58; LF; LF] ++ lit "---" ++ [LF]).
  vm_compute. reflexivity.
Qed.

Lemma system_msg_is_context (D : pystr) : is_context (system_msg D) = true.
Proof.
  unfold is_context, isinstance, system_msg. cbn [kind content].
  rewrite bool_decide_eq_true_2 by done. cbn [andb].
  destruct template_head_mentions as (a & b & ->).
  rewrite <- !(assoc_L (++)). apply contains_infix.
Qed.

Lemma ensureContext_cases (messages : list BaseMessage) (context_text : pystr) :
  (ensureContext messages context_text = system_msg context_text :: messages
   /\ context_text <> [] /\ messages <> [] /\ has_context messages = false)
  \/ (ensureContext messages context_text = messages
      /\ (context_text = [] \/ messages = [] \/ has_context messages = true)).
Proof.
  unfold ensureContext.
  destruct context_text as [|c t]; [auto|].
  destruct messages as [|m ms]; [auto|].
  cbn [truthy andb].
  destruct (has_context (m :: ms)) eqn:E; cbn [negb]; [auto|].
  left. repeat split; congruence.
Qed.

(** C1. Context injection is idempotent: for every conversation [C] and every
    document text [D], injecting twice with the same [D] gives the same
    message list as injecting once; the message inserted the first time is
    itself recognised by the [has_context] check. *)
Theorem ensureContext_idempotent (C : list BaseMessage) (D : pystr) :
  ensureContext (ensureContext C D) D = ensureContext C D.
Proof.
  destruct (ensureContext_cases C D) as [(E & HD & HC & Hno) | (E & _)].
  - rewrite E. unfold ensureContext.
    apply truthy_true in HD. rewrite HD. cbn [truthy andb has_context existsb].
    rewrite system_msg_is_context. reflexivity.
  - rewrite E. exact E.
Qed.



(** A document of 4001 characters is cut to its first 4000. *)
Example truncation_long :
  length (replicate 4001 (97 : char)) = 4001%nat /\
  context_snippet (replicate 4001 (97 : char)) = replicate 4000 (97 : char).
Proof. split; vm_compute; reflexivity. Qed.

(** C8. Empty-document no-op: with the empty document text the injection
    step returns the conversation as it is. *)
Theorem ensureContext_empty_document (C : list BaseMessage) :
  ensureContext C [] = C.
Proof. reflexivity. Qed.

(** C10. Injection requires a non-empty message list: for a non-empty
    document text [D], the agent step on the empty message list inserts no
    system-context message, and the model (when the client can be built) is
    invoked with the empty list, hence without the document. *)
Theorem empty_conversation_gets_no_context (w : world) (D : pystr) :
  D <> [] ->
  ensureContext [] D = []
  /\ has_context (ensureContext [] D) = false
  /\ snd (agent_node w D [])
     = match ChatGroq w with Ok _ => [llm_call []] | Raise _ => [] end.
Proof.
  intros HD.
  assert (E : ensureContext [] D = []).
  { unfold ensureContext. destruct D; reflexivity. }
  split; [exact E|]. split; [rewrite E; reflexivity|].
  unfold agent_node. rewrite E.
  destruct (ChatGroq w); [|reflexivity].
  destruct (llm_invoke w []); reflexivity.
Qed.

Lemma empty_conversation_gets_no_context_witness :
  ensureContext [] (lit "Revenue grew 10% in Q1.") = []
  /\ has_context (ensureContext [] (lit "Revenue grew 10% in Q1.")) = false
  /\ snd (agent_node
            {| requests_get := fun _ => get_raises [];
               ChatGroq := Ok tt;
               llm_invoke := fun _ => Ok (lit "I have no document.") |}
            (lit "Revenue grew 10% in Q1.") [])
     = [llm_call []].
Proof.
  apply (empty_conversation_gets_no_context
           {| requests_get := fun _ => get_raises [];
              ChatGroq := Ok tt;
              llm_invoke := fun _ => Ok (lit "I have no document.") |}
           (lit "Revenue grew 10% in Q1.")).
  discriminate.
Defined.

(** ** Turn rejection *)

(** C5. Turn rejection: a user input submitted while no text is extracted
    leaves the whole session state, hence the conversation, as it was; the
    model is not called; and the only thing signalled is the warning that
    asks for a document. *)
Theorem turn_rejected_when_not_ready (w : world) (prompt : pystr)
  (s : session_state) :
  ready s = false ->
  fst (fst (chat_input w (Some prompt) s)) = s
  /\ (forall messages, llm_call messages ∉ snd (fst (chat_input w (Some prompt) s)))
  /\ (prompt <> [] ->
      chat_input w (Some prompt) s = (s, [st_warning load_first_msg], false)).
Proof.
  unfold ready, chat_input. intros Hready. rewrite Hready. cbn [negb].
  destruct (truthy prompt) eqn:Hp; cbn [negb fst snd].
  - split; [reflexivity|]. split; [|reflexivity].
    intros messages Hin. apply list_elem_of_singleton in Hin. discriminate.
  - split; [reflexivity|]. split.
    + intros messages Hin. inversion Hin.
    + intros Hne. apply truthy_false in Hp. contradiction.
Qed.

Lemma turn_rejected_when_not_ready_witness :
  chat_input world_up (Some (lit "What was Q1 revenue growth?")) initial_state
  = (initial_state, [st_warning load_first_msg], false).
Proof.
  apply (turn_rejected_when_not_ready world_up
           (lit "What was Q1 revenue growth?") initial_state);
    [reflexivity | discriminate].
Defined.

(** ** Loading a document *)

Lemma chat_messages_set_source pdf url s :
  chat_messages (set_source pdf url s) = [].
Proof. reflexivity. Qed.

(** What either branch does once the source has been (re)set: the stored
    text becomes what the extractor returned, and the conversation is kept. *)
Lemma store_extracted (s1 : session_state) (text : pystr) (log : list event)
  (ok failed : list event) :
  extracted_text s1 = [] ->
  let r := if truthy text
           then (set_extracted text s1, log ++ ok)
           else (s1, log ++ failed) in
  extracted_text (fst r) = text /\ chat_messages (fst r) = chat_messages s1.
Proof.
  intros H. destruct text; cbn; [rewrite H|]; split; reflexivity.
Qed.

(** What a loading branch does to the session at once: a source that
    differs from the one kept in the session empties [chat_messages] and
    stores the newly extracted text (the empty text when nothing could be
    extracted), for the PDF and for the URL branch alike; a pass with the
    source the session already keeps leaves [chat_messages] as it is.  The
    thread saved in the graph is not among the fields that are reset. *)
Theorem new_source_resets_conversation (w : world) (uploaded : pdf_docs)
  (url : pystr) (s : session_state) :
  truthy_docs uploaded = true -> url <> [] ->
  (pdf_docs_eqb (uploaded_pdf s) uploaded = false ->
     chat_messages (fst (pdf_upload_branch uploaded s)) = []
     /\ extracted_text (fst (pdf_upload_branch uploaded s))
        = fst (extract_pdf_text uploaded))
  /\ (web_url s <> Some url ->
     chat_messages (fst (web_url_branch w url true s)) = []
     /\ extracted_text (fst (web_url_branch w url true s))
        = fst (extract_web_text (requests_get w) (Some url)))
  /\ (pdf_docs_eqb (uploaded_pdf s) uploaded = true ->
     chat_messages (fst (pdf_upload_branch uploaded s)) = chat_messages s)
  /\ (web_url s = Some url ->
     chat_messages (fst (web_url_branch w url true s)) = chat_messages s).
Proof.
  intros Hup Hurl. apply truthy_true in Hurl.
  unfold pdf_upload_branch, web_url_branch. rewrite Hup, Hurl. cbn [andb].
  repeat split.
  - rewrite H. cbn [negb documents_processed set_source uploaded_pdf].
    destruct (extract_pdf_text uploaded) as [text log].
    apply (store_extracted (set_source uploaded None s) text log). reflexivity.
  - rewrite H. cbn [negb documents_processed set_source uploaded_pdf fst].
    destruct (extract_pdf_text uploaded) as [text log].
    apply (store_extracted (set_source uploaded None s) text log). reflexivity.
  - rewrite bool_decide_eq_false_2 by done.
    cbn [negb documents_processed set_source web_url].
    destruct (extract_web_text (requests_get w) (Some url)) as [text log].
    apply (store_extracted (set_source pdf_none (Some url) s) text log). reflexivity.
  - rewrite bool_decide_eq_false_2 by done.
    cbn [negb documents_processed set_source web_url fst].
    destruct (extract_web_text (requests_get w) (Some url)) as [text log].
    apply (store_extracted (set_source pdf_none (Some url) s) text log). reflexivity.
  - intros H. rewrite H. cbn [negb].
    destruct (documents_processed s); cbn [negb fst]; [reflexivity|].
    destruct (extract_pdf_text (uploaded_pdf s)) as [text log].
    destruct (truthy text); reflexivity.
  - intros H. rewrite bool_decide_eq_true_2 by done. cbn [negb].
    destruct (documents_processed s); cbn [negb fst]; [reflexivity|].
    destruct (extract_web_text (requests_get w) (web_url s)) as [text log].
    destruct (truthy text); reflexivity.
Qed.

Lemma new_source_resets_conversation_witness :
  chat_messages after_one_turn <> []
  /\ chat_messages (fst (pdf_upload_branch (pdf_list [Some memo_pdf]) after_one_turn)) = []
  /\ extracted_text (fst (pdf_upload_branch (pdf_list [Some memo_pdf]) after_one_turn))
     = lit "Costs fell."
  /\ chat_messages (fst (web_url_branch world_up report_url true after_one_turn)) = []
  /\ extracted_text (fst (web_url_branch world_up report_url true after_one_turn))
     = q1_text.
Proof.
  destruct (new_source_resets_conversation world_up (pdf_list [Some memo_pdf])
              report_url after_one_turn)
    as (Hpdf & Hweb & _); [reflexivity | discriminate |].
  destruct Hpdf as [Hc Ht]; [reflexivity|].
  destruct Hweb as [Hc' Ht']; [discriminate|].
  rewrite Hc, Ht, Hc', Ht'.
  split; [discriminate|]. repeat split; vm_compute; reflexivity.
Defined.

(** C4. Document switch resets conversation: the code does not keep this.
    After one question on [report_pdf] the user uploads [memo_pdf]: the text
    is replaced and [chat_messages] is emptied, but the thread saved in the
    graph still holds the old question and answer.  On the next question the
    graph reduces the input into that thread: the model is called with the
    system message of the new document followed by the old conversation and
    the new question, and the old conversation is back in [chat_messages]. *)
Theorem document_switch_keeps_thread :
  chat_messages after_one_turn
  = [Msg HumanMessage q1_question (Some 0);
     Msg AIMessage (lit "Revenue grew 10%.") (Some 1)]
  /\ uploaded_pdf after_switch = pdf_list [Some memo_pdf]
  /\ extracted_text after_switch = lit "Costs fell."
  /\ chat_messages after_switch = []
  /\ graph_state after_switch = chat_messages after_one_turn
  /\ session_log [(world_up, with_memo (Some q2_question))] after_switch
     = [st_info (loaded_msg (lit "Costs fell."));
        llm_call [system_msg (lit "Costs fell.");
                  Msg HumanMessage q1_question (Some 0);
                  Msg AIMessage (lit "Revenue grew 10%.") (Some 1);
                  Msg HumanMessage q2_question (Some 2)];
        st_info (loaded_msg (lit "Costs fell."))]
  /\ chat_messages (session [(world_up, with_memo (Some q2_question))] after_switch)
     = [Msg HumanMessage q1_question (Some 0);
        Msg AIMessage (lit "Revenue grew 10%.") (Some 1);
        Msg HumanMessage q2_question (Some 2);
        Msg AIMessage (lit "Revenue grew 10%.") (Some 3)].
Proof. repeat split; vm_compute; reflexivity. Qed.

(** ** PDF extraction *)

Lemma lstrip_snoc (s : pystr) (c : char) :
  is_whitespace c = true ->
  lstrip (s ++ [c]) = match lstrip s with [] => [] | l => l ++ [c] end.
Proof.
  intros Hc. induction s as [|a s IH]; cbn [lstrip app].
  - rewrite Hc. reflexivity.
  - destruct (is_whitespace a); [exact IH | reflexivity].
Qed.

Lemma strip_snoc (s : pystr) (c : char) :
  is_whitespace c = true -> strip (s ++ [c]) = strip s.
Proof.
  intros Hc. unfold strip. rewrite lstrip_snoc by exact Hc.
  destruct (lstrip s) as [|a l]; [reflexivity|].
  rewrite reverse_snoc. cbn [lstrip]. rewrite Hc. reflexivity.
Qed.

Lemma join_lines (texts : list pystr) :
  texts <> [] ->
  concat (map (fun t => t ++ [LF]) texts) = join [LF] texts ++ [LF].
Proof.
  induction texts as [|t [|t' rest] IH]; intros Hne; [done | |].
  - cbn. by rewrite app_nil_r.
  - change (concat (map (fun t => t ++ [LF]) (t :: t' :: rest)))
      with ((t ++ [LF]) ++ concat (map (fun t => t ++ [LF]) (t' :: rest))).
    rewrite IH by done.
    change (join [LF] (t :: t' :: rest)) with (t ++ [LF] ++ join [LF] (t' :: rest)).
    by rewrite <- !(assoc_L (++)).
Qed.

Lemma strip_lines (texts : list pystr) :
  strip (concat (map (fun t => t ++ [LF]) texts)) = strip (join [LF] texts).
Proof.
  destruct texts as [|t rest]; [reflexivity|].
  rewrite join_lines by done. apply strip_snoc. reflexivity.
Qed.

Lemma extract_pages_ok (pages : list (option page_behaviour)) (text : pystr) :
  existsb page_raises pages = false ->
  extract_pages pages text
  = Ok (text ++ concat (map (fun t => t ++ [LF]) (page_texts pages))).
Proof.
  revert text. induction pages as [|p ps IH]; intros text H.
  - cbn. by rewrite app_nil_r.
  - cbn [existsb] in H. apply orb_false_iff in H as [Hp Hps].
    destruct p as [[e|t]|]; [discriminate | |].
    + cbn [extract_pages]. rewrite IH by exact Hps.
      change (page_texts (Some (extract_returns t) :: ps))
        with ((if truthy t then [t] else []) ++ page_texts ps).
      destruct (truthy t); [|reflexivity].
      cbn [app map concat]. by rewrite <- !(assoc_L (++)).
    + cbn [extract_pages]. rewrite IH by exact Hps. reflexivity.
Qed.

Lemma extract_pages_raise (pages : list (option page_behaviour)) (text : pystr) :
  existsb page_raises pages = true -> exists e, extract_pages pages text = Raise e.
Proof.
  revert text. induction pages as [|[[e|t]|] ps IH]; intros text H; cbn in *.
  - discriminate.
  - eauto.
  - apply IH, H.
  - apply IH, H.
Qed.

Lemma extract_files_ok (files : list (option UploadedFile)) (text : pystr)
  (log : list event) :
  existsb file_raises files = false ->
  exists log',
    extract_files files text log
    = (Ok (text ++ concat (map (fun t => t ++ [LF]) (extractable_texts files))), log').
Proof.
  revert text log. induction files as [|[f|] fs IH]; intros text log H.
  - exists log. cbn. by rewrite app_nil_r.
  - cbn [existsb] in H. apply orb_false_iff in H as [Hf Hfs].
    unfold file_raises in Hf. unfold extractable_texts.
    cbn [extract_files mbind list_bind file_texts].
    destruct (reader f) as [e| |pages]; [discriminate | |].
    + apply IH, Hfs.
    + rewrite (extract_pages_ok pages text Hf).
      destruct (IH (text ++ concat (map (fun t => t ++ [LF]) (page_texts pages))) log Hfs)
        as [log' E].
      exists log'. rewrite E. unfold extractable_texts.
      by rewrite map_app, concat_app, (assoc_L (++)).
  - cbn [existsb file_raises orb] in H. apply (IH text log H).
Qed.

Lemma extract_files_raise (files : list (option UploadedFile)) (text : pystr)
  (log : list event) :
  existsb file_raises files = true ->
  exists e log', extract_files files text log = (Raise e, log').
Proof.
  revert text log. induction files as [|[f|] fs IH]; intros text log H.
  - discriminate.
  - cbn [existsb] in H. cbn [extract_files].
    unfold file_raises in H.
    destruct (reader f) as [e| |pages]; [eauto | apply IH, H |].
    destruct (existsb page_raises pages) eqn:Hp.
    + destruct (extract_pages_raise pages text Hp) as [e ->]. eauto.
    + rewrite (extract_pages_ok pages text Hp). apply IH, H.
  - apply IH, H.
Qed.

(** C7, as the code has it: one [try] encloses the whole loop.  If reading
    any file or extracting any page raises, the extractor reports the error
    and returns the empty string, whatever the other files hold.  If nothing
    raises, files and pages that are [None], readers without pages and empty
    page texts are skipped, and the result is the newline-separated
    concatenation of the remaining page texts, stripped at both ends. *)
Theorem extract_pdf_text_all_or_nothing (docs : pdf_docs) :
  truthy_docs docs = true ->
  (existsb file_raises (files_to_process docs) = true ->
     fst (extract_pdf_text docs) = []
     /\ exists e, last (snd (extract_pdf_text docs))
                  = Some (st_error (lit "Error processing PDF: " ++ e)))
  /\ (existsb file_raises (files_to_process docs) = false ->
     fst (extract_pdf_text docs)
     = strip (join [LF] (extractable_texts (files_to_process docs)))).
Proof.
  intros Hdocs. unfold extract_pdf_text. rewrite Hdocs. cbn [negb]. split.
  - intros H.
    destruct (extract_files_raise (files_to_process docs) [] [] H) as (e & log' & ->).
    split; [reflexivity|]. exists e. cbn [snd]. apply last_snoc.
  - intros H.
    destruct (extract_files_ok (files_to_process docs) [] [] H) as (log' & ->).
    cbn [fst app]. apply strip_lines.
Qed.

Lemma extract_pdf_text_all_or_nothing_witness :
  fst (extract_pdf_text (pdf_list [Some report_pdf; Some broken_pdf])) = []
  /\ fst (extract_pdf_text (pdf_list [Some report_pdf; None; Some memo_pdf]))
     = q1_text ++ [LF] ++ lit "Costs fell.".
Proof.
  split.
  - destruct (extract_pdf_text_all_or_nothing
                (pdf_list [Some report_pdf; Some broken_pdf])) as [Hraise _];
      [reflexivity|].
    apply Hraise. reflexivity.
  - destruct (extract_pdf_text_all_or_nothing
                (pdf_list [Some report_pdf; None; Some memo_pdf])) as [_ Hok];
      [reflexivity|].
    rewrite Hok by reflexivity. vm_compute. reflexivity.
Defined.

(** C7 as stated fails: [report_pdf] is readable and [broken_pdf] raises;
    a best-effort extractor returns the text of [report_pdf], the code
    returns the empty string. *)
Lemma one_bad_file_aborts_extraction :
  best_effort_text (pdf_list [Some report_pdf; Some broken_pdf]) = q1_text
  /\ extract_pdf_text (pdf_list [Some report_pdf; Some broken_pdf])
     = ([], [st_error (lit "Error processing PDF: " ++ lit "EOF marker not found")])
  /\ fst (extract_pdf_text (pdf_list [Some report_pdf; Some broken_pdf]))
     <> best_effort_text (pdf_list [Some report_pdf; Some broken_pdf]).
Proof. vm_compute. repeat split; discriminate. Qed.

(** ** Web fetch *)





(** ** The reducer *)

Lemma has_id_below_mono (n n' : N) (m : BaseMessage) :
  n <= n' -> has_id_below n m -> has_id_below n' m.
Proof. intros Hle (k & E & Hk). exists k. split; [exact E | lia]. Qed.

Lemma has_id_below_id_below (n : N) (m : BaseMessage) :
  has_id_below n m -> id_below n m.
Proof. intros (k & E & Hk). unfold id_below. by rewrite E. Qed.

Lemma not_context_id_blind : id_blind (fun m => is_context m = false).
Proof. intros m u H. exact H. Qed.

Lemma assign_ids_Forall (P : BaseMessage -> Prop) (u : N) (ms : list BaseMessage) :
  id_blind P -> Forall P ms -> Forall P (fst (assign_ids u ms)).
Proof.
  intros HP H. revert u. induction H as [|m ms Hm Hms IH]; intros u; cbn.
  - constructor.
  - destruct (msg_id m).
    + specialize (IH u). destruct (assign_ids u ms). cbn in *. by constructor.
    + specialize (IH (N.succ u)). destruct (assign_ids (N.succ u) ms).
      cbn in *. constructor; [by apply HP | done].
Qed.

Lemma assign_ids_fresh (u : N) (ms : list BaseMessage) :
  Forall (id_below u) ms ->
  u <= snd (assign_ids u ms)
  /\ Forall (has_id_below (snd (assign_ids u ms))) (fst (assign_ids u ms)).
Proof.
  revert u. induction ms as [|m ms IH]; intros u H; cbn.
  - split; [lia | constructor].
  - apply Forall_cons in H as [Hm Hms]. unfold id_below in Hm.
    destruct (msg_id m) as [k|] eqn:E.
    + destruct (IH u Hms) as [Hle Hall].
      destruct (assign_ids u ms) as [rest' u']. cbn in *.
      split; [exact Hle|]. constructor; [|exact Hall].
      exists k. split; [exact E | lia].
    + assert (Hms' : Forall (id_below (N.succ u)) ms).
      { eapply Forall_impl; [exact Hms|]. intros x Hx. unfold id_below in *.
        destruct (msg_id x); [lia | done]. }
      destruct (IH (N.succ u) Hms') as [Hle Hall].
      destruct (assign_ids (N.succ u) ms) as [rest' u']. cbn in *.
      split; [lia|]. constructor; [|exact Hall].
      exists u. split; [reflexivity | lia].
Qed.

Lemma assign_ids_id (u n : N) (ms : list BaseMessage) :
  Forall (has_id_below n) ms -> assign_ids u ms = (ms, u).
Proof.
  induction 1 as [|m ms (k & E & _) _ IH]; cbn; [done|].
  by rewrite E, IH.
Qed.

Lemma assign_ids_length (u : N) (ms : list BaseMessage) :
  length (fst (assign_ids u ms)) = length ms.
Proof.
  revert u. induction ms as [|m ms IH]; intros u; cbn; [done|].
  destruct (msg_id m).
  - specialize (IH u). destruct (assign_ids u ms). cbn in *. by rewrite IH.
  - specialize (IH (N.succ u)). destruct (assign_ids (N.succ u) ms).
    cbn in *. by rewrite IH.
Qed.

Lemma merge_Forall (P : BaseMessage -> Prop) (right merged : list BaseMessage)
  (d : gmap (option N) nat) :
  Forall P merged -> Forall P right -> Forall P (merge right merged d).
Proof.
  intros Hm Hr. revert merged d Hm.
  induction Hr as [|m rest Hx Hrest IH]; intros merged d Hm; cbn; [done|].
  destruct (d !! msg_id m) as [i|].
  - apply IH. by apply Forall_insert.
  - apply IH. apply Forall_app. split; [done | by constructor].
Qed.

Lemma merge_length (right merged : list BaseMessage) (d : gmap (option N) nat) :
  (length merged <= length (merge right merged d))%nat.
Proof.
  revert merged d. induction right as [|m rest IH]; intros merged d; cbn; [lia|].
  destruct (d !! msg_id m) as [i|].
  - etrans; [|apply IH]. by rewrite length_insert.
  - etrans; [|apply IH]. rewrite length_app. cbn. lia.
Qed.

Lemma index_by_id_lookup (i : nat) (merged : list BaseMessage)
  (d : gmap (option N) nat) (k : option N) (j : nat) :
  index_by_id i merged d !! k = Some j ->
  d !! k = Some j \/ exists m, m ∈ merged /\ msg_id m = k.
Proof.
  revert i d. induction merged as [|m rest IH]; intros i d H; cbn in H.
  - by left.
  - apply IH in H as [H | (m' & Hin & E)].
    + destruct (decide (msg_id m = k)) as [E | Hne].
      * right. exists m. split; [left | exact E].
      * left. by rewrite lookup_insert_ne in H.
    + right. exists m'. split; [by right | exact E].
Qed.

Lemma index_by_id_fresh (merged : list BaseMessage) (u : N) :
  Forall (has_id_below u) merged -> index_by_id 0 merged ∅ !! Some u = None.
Proof.
  intros Hall. destruct (index_by_id 0 merged ∅ !! Some u) as [j|] eqn:E; [|done].
  apply index_by_id_lookup in E as [E | (m & Hin & E)].
  - by rewrite lookup_empty in E.
  - rewrite Forall_forall in Hall. destruct (Hall m Hin) as (k & E' & Hk).
    rewrite E in E'. injection E' as ->. lia.
Qed.

Lemma add_messages_Forall (P : BaseMessage -> Prop) (u : N)
  (left right : list BaseMessage) :
  id_blind P -> Forall P left -> Forall P right ->
  Forall P (fst (add_messages u left right)).
Proof.
  intros HP Hl Hr. unfold add_messages.
  pose proof (assign_ids_Forall P u left HP Hl) as Hl'.
  destruct (assign_ids u left) as [left' u1].
  pose proof (assign_ids_Forall P u1 right HP Hr) as Hr'.
  destruct (assign_ids u1 right) as [right' u2].
  cbn in *. by apply merge_Forall.
Qed.

Lemma add_messages_fresh (u : N) (left right : list BaseMessage) :
  Forall (id_below u) left -> Forall (id_below u) right ->
  u <= snd (add_messages u left right)
  /\ Forall (has_id_below (snd (add_messages u left right)))
            (fst (add_messages u left right)).
Proof.
  intros Hl Hr. unfold add_messages.
  destruct (assign_ids_fresh u left Hl) as [Hle1 Hl'].
  destruct (assign_ids u left) as [left' u1]. cbn in *.
  assert (Hr1 : Forall (id_below u1) right).
  { eapply Forall_impl; [exact Hr|]. intros x Hx. unfold id_below in *.
    destruct (msg_id x); [lia | done]. }
  destruct (assign_ids_fresh u1 right Hr1) as [Hle2 Hr'].
  destruct (assign_ids u1 right) as [right' u2]. cbn in *.
  split; [lia|]. apply merge_Forall; [|exact Hr'].
  eapply Forall_impl; [exact Hl'|]. intros x. by apply has_id_below_mono.
Qed.

(** Reducing one id-less message into a channel whose ids are all in use
    appends it, under the next uuid. *)
Lemma add_messages_append (u : N) (state : list BaseMessage) (m : BaseMessage) :
  Forall (has_id_below u) state -> msg_id m = None ->
  add_messages u state [m]
  = (state ++ [Msg (kind m) (content m) (Some u)], N.succ u).
Proof.
  intros Hall Hm. unfold add_messages.
  rewrite (assign_ids_id u u state Hall). cbn [assign_ids]. rewrite Hm.
  cbn [merge msg_id]. by rewrite (index_by_id_fresh state u Hall).
Qed.

(** ** A turn *)

(** The accepting path of the chat handler, spelled out. *)
Lemma chat_input_turn (w : world) (prompt : pystr) (s : session_state) :
  ready s = true -> prompt <> [] ->
  chat_input w (Some prompt) s
  = (let update := fst (agent_node w (extracted_text s) (turn_state prompt s)) in
     let r := add_messages (turn_uuid prompt s) (turn_state prompt s) update in
     ({| uploaded_pdf := uploaded_pdf s;
         web_url := web_url s;
         chat_messages := fst r;
         documents_processed := documents_processed s;
         extracted_text := extracted_text s;
         graph_state := fst r;
         next_uuid := snd r |},
      snd (agent_node w (extracted_text s) (turn_state prompt s)),
      true)).
Proof.
  intros Hready Hprompt. apply truthy_true in Hprompt.
  unfold chat_input, ready in *. rewrite Hprompt, Hready. cbn [negb].
  unfold graph_invoke, turn_state, turn_uuid, turn_input.
  cbn [chat_messages set_chat_messages graph_state next_uuid extracted_text].
  destruct (add_messages (next_uuid s) (graph_state s)
              (chat_messages s ++ [Msg HumanMessage prompt None])) as [state uuid1].
  cbn [fst snd].
  destruct (agent_node w (extracted_text s) state) as [update log].
  cbn [fst snd].
  destruct (add_messages uuid1 state update) as [state' uuid2].
  reflexivity.
Qed.

Lemma turn_state_fresh (prompt : pystr) (s : session_state) :
  fresh_ids s ->
  next_uuid s <= turn_uuid prompt s
  /\ Forall (has_id_below (turn_uuid prompt s)) (turn_state prompt s).
Proof.
  intros [Hg Hc]. apply add_messages_fresh; [exact Hg|].
  unfold turn_input. apply Forall_app. split; [exact Hc|].
  constructor; [exact I | constructor].
Qed.

(** C6. Failure containment: in a turn on a ready document, if building the
    client or the model call made in this turn raises [e], the handler does
    not raise: the conversation becomes the channel of the turn followed by
    an assistant message with content ["Error: " ++ e], which is therefore
    its last message; the run ends normally and the session can take the
    next turn. *)
Theorem failure_containment (w : world) (prompt e : pystr) (s : session_state) :
  ready s = true -> prompt <> [] -> fresh_ids s ->
  (ChatGroq w = Raise e
   \/ exists messages,
        snd (fst (chat_input w (Some prompt) s)) = [llm_call messages]
        /\ llm_invoke w messages = Raise e) ->
  chat_messages (fst (fst (chat_input w (Some prompt) s)))
  = turn_state prompt s
    ++ [Msg AIMessage (lit "Error: " ++ e) (Some (turn_uuid prompt s))]
  /\ last (chat_messages (fst (fst (chat_input w (Some prompt) s))))
     = Some (Msg AIMessage (lit "Error: " ++ e) (Some (turn_uuid prompt s)))
  /\ snd (chat_input w (Some prompt) s) = true
  /\ ready (fst (fst (chat_input w (Some prompt) s))) = true
  /\ fresh_ids (fst (fst (chat_input w (Some prompt) s))).
Proof.
  intros Hready Hprompt Hfresh Hraise.
  destruct (turn_state_fresh prompt s Hfresh) as [Hle Hstate].
  rewrite (chat_input_turn w prompt s Hready Hprompt) in *.
  cbn [fst snd] in *.
  assert (Hupdate : fst (agent_node w (extracted_text s) (turn_state prompt s))
                    = [error_msg e]).
  { unfold agent_node in *.
    destruct Hraise as [-> | (messages & Hlog & Hinvoke)]; [reflexivity|].
    destruct (ChatGroq w); [|discriminate].
    destruct (llm_invoke w (ensureContext (turn_state prompt s) (extracted_text s)))
      eqn:E; cbn [fst snd] in *; injection Hlog as <-; congruence. }
  rewrite Hupdate.
  rewrite (add_messages_append _ _ (error_msg e) Hstate eq_refl).
  cbn [fst snd chat_messages graph_state next_uuid extracted_text kind content error_msg].
  split; [reflexivity|]. split; [apply last_snoc|]. split; [reflexivity|].
  split; [exact Hready|].
  assert (Forall (id_below (N.succ (turn_uuid prompt s)))
            (turn_state prompt s
             ++ [Msg AIMessage (lit "Error: " ++ e) (Some (turn_uuid prompt s))])).
  { apply Forall_app. split.
    - eapply Forall_impl; [exact Hstate|]. intros x Hx.
      apply has_id_below_id_below. eapply has_id_below_mono; [|exact Hx]. lia.
    - constructor; [|constructor]. unfold id_below. cbn. lia. }
  split; assumption.
Qed.

Lemma failure_containment_witness :
  chat_messages
    (fst (fst (chat_input world_down (Some q1_question) after_one_turn)))
  = chat_messages after_one_turn
    ++ [Msg HumanMessage q1_question (Some 2);
        Msg AIMessage (lit "Error: Connection error.") (Some 3)].
Proof.
  destruct (failure_containment world_down q1_question (lit "Connection error.")
              after_one_turn) as [E _].
  - reflexivity.
  - discriminate.
  - split; vm_compute; repeat constructor.
  - right. eexists. split; vm_compute; reflexivity.
  - rewrite E. vm_compute. reflexivity.
Defined.

(** ** Placement of the system-context message *)

Lemma has_context_false (messages : list BaseMessage) :
  has_context messages = false <-> Forall (fun m => is_context m = false) messages.
Proof.
  unfold has_context. induction messages as [|m ms IH]; cbn.
  - split; [constructor | done].
  - rewrite orb_false_iff, Forall_cons, IH. reflexivity.
Qed.

Lemma context_count_none (messages : list BaseMessage) :
  has_context messages = false -> context_count messages = 0%nat.
Proof.
  unfold context_count. intros H. apply has_context_false in H.
  induction H as [|m ms Hm _ IH]; [reflexivity|].
  rewrite filter_cons_False; [exact IH | congruence].
Qed.

Lemma injected_in_place (C : list BaseMessage) (D : pystr) :
  has_context C = false -> context_in_place (system_msg D :: C).
Proof.
  intros H. split.
  - exists (system_msg D). split; [reflexivity | apply system_msg_is_context].
  - unfold context_count.
    rewrite filter_cons_True by apply system_msg_is_context.
    cbn [length]. f_equal. by apply context_count_none.
Qed.

Lemma injection_in_place (C : list BaseMessage) (D : pystr) :
  has_context C = false ->
  has_context (ensureContext C D) = true -> context_in_place (ensureContext C D).
Proof.
  intros Hno Hyes.
  destruct (ensureContext_cases C D) as [(E & _) | (E & _)]; rewrite E in *.
  - by apply injected_in_place.
  - congruence.
Qed.

Lemma add_messages_nonempty (u : N) (left right : list BaseMessage) :
  right <> [] -> fst (add_messages u left right) <> [].
Proof.
  intros Hr. unfold add_messages.
  destruct (assign_ids u left) as [left' u1].
  pose proof (assign_ids_length u1 right) as Hlen.
  destruct (assign_ids u1 right) as [right' u2]. cbn [fst] in *.
  destruct right' as [|m rest]; [by destruct right|].
  intros E. apply (f_equal length) in E. cbn [length merge] in E.
  destruct left' as [|x left'].
  - cbn in E. rewrite lookup_empty in E.
    pose proof (merge_length rest ([] ++ [m])
                  (<[msg_id m := length (@nil BaseMessage)]> ∅)) as H.
    cbn in *. lia.
  - destruct (index_by_id 0 (x :: left') ∅ !! msg_id m) as [i|].
    + pose proof (merge_length rest (<[i:=m]> (x :: left'))
                    (index_by_id 0 (x :: left') ∅)) as H.
      rewrite length_insert in H. cbn in *. lia.
    + pose proof (merge_length rest ((x :: left') ++ [m])
                    (<[msg_id m := length (x :: left')]>
                       (index_by_id 0 (x :: left') ∅))) as H.
      cbn in *. lia.
Qed.

Lemma turn_state_context_free (prompt : pystr) (s : session_state) :
  context_free s -> Forall (fun m => is_context m = false) (turn_state prompt s).
Proof.
  intros [Hc Hg].
  apply add_messages_Forall; [apply not_context_id_blind | |].
  - by apply has_context_false.
  - unfold turn_input. apply Forall_app. split; [by apply has_context_false|].
    constructor; [reflexivity | constructor].
Qed.

(** In a turn the model is called with exactly one system-context message,
    at index 0. *)
Lemma turn_call_in_place (w : world) (prompt : pystr) (s : session_state)
  (messages : list BaseMessage) :
  ready s = true -> context_free s ->
  llm_call messages ∈ snd (agent_node w (extracted_text s) (turn_state prompt s)) ->
  context_in_place messages.
Proof.
  intros Hready Hfree Hin.
  assert (Hstate : has_context (turn_state prompt s) = false).
  { apply has_context_false. by apply turn_state_context_free. }
  assert (Hne : turn_state prompt s <> []).
  { apply add_messages_nonempty. unfold turn_input. by destruct (chat_messages s). }
  assert (E : ensureContext (turn_state prompt s) (extracted_text s)
              = system_msg (extracted_text s) :: turn_state prompt s).
  { destruct (ensureContext_cases (turn_state prompt s) (extracted_text s))
      as [(E & _) | (_ & [H | [H | H]])]; [exact E | | congruence ..].
    unfold ready in Hready. rewrite H in Hready. discriminate. }
  unfold agent_node in Hin. rewrite E in Hin.
  destruct (ChatGroq w); [|inversion Hin].
  destruct (llm_invoke w _); cbn [snd] in Hin;
    apply list_elem_of_singleton in Hin; injection Hin as ->;
    by apply injected_in_place.
Qed.

(** The update of the agent node is one assistant message without id. *)
Lemma agent_node_update (w : world) (context_text : pystr)
  (state : list BaseMessage) :
  exists reply, fst (agent_node w context_text state) = [Msg AIMessage reply None].
Proof.
  unfold agent_node. destruct (ChatGroq w); [|by eexists].
  destruct (llm_invoke w _); by eexists.
Qed.

(** ** Invariants of a session *)

(** The sidebar leaves the graph alone. *)
Lemma same_channel_refl (s : session_state) : same_channel s s.
Proof. repeat split. by left. Qed.

Lemma same_channel_trans (s1 s2 s3 : session_state) :
  same_channel s1 s2 -> same_channel s2 s3 -> same_channel s1 s3.
Proof.
  intros (Hg & Hu & Hc) (Hg' & Hu' & Hc'). repeat split; [congruence ..|].
  destruct Hc' as [-> | ->]; [exact Hc | by right].
Qed.

Lemma same_channel_context_free (s s' : session_state) :
  same_channel s s' -> context_free s -> context_free s'.
Proof.
  intros (Hg & _ & Hc) [H1 H2]. split; [|by rewrite Hg].
  destruct Hc as [-> | ->]; [exact H1 | reflexivity].
Qed.

Lemma same_channel_fresh_ids (s s' : session_state) :
  same_channel s s' -> fresh_ids s -> fresh_ids s'.
Proof.
  intros (Hg & Hu & Hc) [H1 H2]. unfold fresh_ids. rewrite Hg, Hu.
  split; [exact H1|]. destruct Hc as [-> | ->]; [exact H2 | constructor].
Qed.

Lemma extract_files_log (files : list (option UploadedFile)) (text : pystr)
  (log : list event) :
  Forall no_llm_call log -> Forall no_llm_call (snd (extract_files files text log)).
Proof.
  revert text log. induction files as [|[f|] fs IH]; intros text log H; cbn.
  - exact H.
  - destruct (reader f) as [e| |pages]; [exact H | |].
    + apply IH. apply Forall_app. split; [exact H | by repeat constructor].
    + destruct (extract_pages pages text); [by apply IH | exact H].
  - by apply IH.
Qed.

Lemma extract_pdf_text_log (docs : pdf_docs) :
  Forall no_llm_call (snd (extract_pdf_text docs)).
Proof.
  unfold extract_pdf_text. destruct (truthy_docs docs); cbn [negb]; [|constructor].
  pose proof (extract_files_log (files_to_process docs) [] [] (Forall_nil_2 _)) as H.
  destruct (extract_files (files_to_process docs) [] []) as [[text|e] log];
    cbn [snd] in *; [exact H|].
  apply Forall_app. split; [exact H | by repeat constructor].
Qed.

Lemma extract_web_text_log (get : pystr -> http_outcome) (url : option pystr) :
  Forall no_llm_call (snd (extract_web_text get url)).
Proof.
  unfold extract_web_text. destruct url as [url|]; [|constructor].
  destruct (truthy url); cbn [negb]; [|constructor].
  destruct (get url) as [e | status_code reason soup_text];
    [by repeat constructor|].
  destruct (raise_for_status url status_code reason); by repeat constructor.
Qed.

Lemma pdf_upload_branch_sidebar (uploaded : pdf_docs) (s : session_state) :
  same_channel s (fst (pdf_upload_branch uploaded s))
  /\ Forall no_llm_call (snd (pdf_upload_branch uploaded s)).
Proof.
  unfold pdf_upload_branch.
  destruct (truthy_docs uploaded); [|split; [apply same_channel_refl | constructor]].
  set (s1 := if negb (pdf_docs_eqb (uploaded_pdf s) uploaded)
             then set_source uploaded None s else s).
  assert (H1 : same_channel s s1).
  { subst s1. destruct (negb _); [|apply same_channel_refl].
    repeat split. by right. }
  destruct (documents_processed s1); cbn [negb];
    [split; [exact H1 | constructor]|].
  pose proof (extract_pdf_text_log (uploaded_pdf s1)) as Hlog.
  destruct (extract_pdf_text (uploaded_pdf s1)) as [text log]. cbn [snd] in Hlog.
  destruct (truthy text); cbn [fst snd].
  - split; [|apply Forall_app; split; [exact Hlog | by repeat constructor]].
    eapply same_channel_trans; [exact H1|]. repeat split. by left.
  - split; [exact H1|]. apply Forall_app. split; [exact Hlog | by repeat constructor].
Qed.

Lemma web_url_branch_sidebar (w : world) (url : pystr) (load_url : bool)
  (s : session_state) :
  same_channel s (fst (web_url_branch w url load_url s))
  /\ Forall no_llm_call (snd (web_url_branch w url load_url s)).
Proof.
  unfold web_url_branch.
  destruct (truthy url && load_url); [|split; [apply same_channel_refl | constructor]].
  set (s1 := if negb (bool_decide (web_url s = Some url))
             then set_source pdf_none (Some url) s else s).
  assert (H1 : same_channel s s1).
  { subst s1. destruct (negb _); [|apply same_channel_refl].
    repeat split. by right. }
  destruct (documents_processed s1); cbn [negb];
    [split; [exact H1 | constructor]|].
  pose proof (extract_web_text_log (requests_get w) (web_url s1)) as Hlog.
  destruct (extract_web_text (requests_get w) (web_url s1)) as [text log].
  cbn [snd] in Hlog.
  destruct (truthy text); cbn [fst snd].
  - split; [|apply Forall_app; split; [exact Hlog | by repeat constructor]].
    eapply same_channel_trans; [exact H1|]. repeat split. by left.
  - split; [exact H1|]. apply Forall_app. split; [exact Hlog | by repeat constructor].
Qed.

Lemma no_llm_call_in_place (log : list event) :
  Forall no_llm_call log -> Forall call_in_place log.
Proof. intros H. eapply Forall_impl; [exact H|]. by intros []. Qed.

Ltac unchanged Hfree :=
  cbn [chat_input negb fst snd];
  split; [exact Hfree | split; [by repeat constructor | auto]].

Lemma chat_input_invariant (w : world) (prompt : option pystr) (s : session_state) :
  context_free s ->
  context_free (fst (fst (chat_input w prompt s)))
  /\ Forall call_in_place (snd (fst (chat_input w prompt s)))
  /\ (fresh_ids s -> fresh_ids (fst (fst (chat_input w prompt s)))).
Proof.
  intros Hfree.
  destruct prompt as [prompt|]; [|unchanged Hfree].
  destruct (truthy prompt) eqn:Hp;
    [|unfold chat_input; rewrite Hp; unchanged Hfree].
  destruct (ready s) eqn:Hready;
    [|unfold chat_input, ready in *; rewrite Hp, Hready; unchanged Hfree].
  apply truthy_true in Hp.
  rewrite (chat_input_turn w prompt s Hready Hp). cbn [fst snd].
  pose proof (turn_state_context_free prompt s Hfree) as Hclean.
  destruct (agent_node_update w (extracted_text s) (turn_state prompt s))
    as [reply Hupdate].
  rewrite Hupdate.
  assert (Hnew : Forall (fun m => is_context m = false)
                   (fst (add_messages (turn_uuid prompt s) (turn_state prompt s)
                           [Msg AIMessage reply None]))).
  { apply add_messages_Forall; [apply not_context_id_blind | exact Hclean |].
    constructor; [reflexivity | constructor]. }
  apply has_context_false in Hnew.
  split; [by split|]. split.
  - apply Forall_forall. intros [] Hin; try exact I.
    by eapply turn_call_in_place.
  - intros Hfresh.
    destruct (turn_state_fresh prompt s Hfresh) as [Hle Hstate].
    destruct (add_messages_fresh (turn_uuid prompt s) (turn_state prompt s)
                [Msg AIMessage reply None]) as [_ Hids].
    { eapply Forall_impl; [exact Hstate|]. apply has_id_below_id_below. }
    { constructor; [exact I | constructor]. }
    eapply Forall_impl in Hids; [|apply has_id_below_id_below].
    by split.
Qed.

Lemma script_pass_invariant (w : world) (ws : widgets) (s : session_state) :
  context_free s ->
  context_free (fst (fst (script_pass w ws s)))
  /\ Forall call_in_place (snd (fst (script_pass w ws s)))
  /\ (fresh_ids s -> fresh_ids (fst (fst (script_pass w ws s)))).
Proof.
  intros Hfree. unfold script_pass.
  set (sidebar := match doc_type ws with
                  | PDF_Upload =>
                      pdf_upload_branch (pdf_list (map Some (file_uploader ws))) s
                  | Web_URL =>
                      web_url_branch w (text_input ws) (load_url_clicked ws) s
                  end).
  assert (Hside : same_channel s (fst sidebar) /\ Forall no_llm_call (snd sidebar)).
  { subst sidebar. destruct (doc_type ws);
      [apply pdf_upload_branch_sidebar | apply web_url_branch_sidebar]. }
  destruct sidebar as [s1 log1]. cbn [fst snd] in Hside. destruct Hside as [H1 Hlog1].
  pose proof (same_channel_context_free s s1 H1 Hfree) as Hfree1.
  pose proof (same_channel_fresh_ids s s1 H1) as Hfresh1.
  set (log2 := if truthy (extracted_text s1)
               then log1 ++ [st_info (loaded_msg (extracted_text s1))] else log1).
  assert (Hlog2 : Forall call_in_place log2).
  { apply no_llm_call_in_place. subst log2.
    destruct (truthy (extracted_text s1)); [|exact Hlog1].
    apply Forall_app. split; [exact Hlog1 | by repeat constructor]. }
  destruct (truthy (extracted_text s1) && clear_document_clicked ws).
  { cbn [fst snd]. split; [split; [reflexivity | apply Hfree1]|].
    split; [exact Hlog2|]. intros Hfresh. split; [by apply Hfresh1 | constructor]. }
  destruct (new_chat_clicked ws).
  { cbn [fst snd]. split; [split; [reflexivity | apply Hfree1]|].
    split; [exact Hlog2|]. intros Hfresh. split; [by apply Hfresh1 | constructor]. }
  destruct (chat_input_invariant w (chat_prompt ws) s1 Hfree1)
    as (Hfree2 & Hlog3 & Hfresh2).
  destruct (chat_input w (chat_prompt ws) s1) as [[s2 log3] rerun].
  cbn [fst snd] in *. split; [exact Hfree2|]. split; [|auto].
  apply Forall_app. split; assumption.
Qed.

Lemma script_run_invariant (w : world) (ws : widgets) (s : session_state) :
  context_free s ->
  context_free (fst (script_run w ws s))
  /\ Forall call_in_place (snd (script_run w ws s))
  /\ (fresh_ids s -> fresh_ids (fst (script_run w ws s))).
Proof.
  intros Hfree. unfold script_run.
  destruct (script_pass_invariant w ws s Hfree) as (Hfree1 & Hlog1 & Hfresh1).
  destruct (script_pass w ws s) as [[s1 log1] rerun]. cbn [fst snd] in *.
  destruct rerun; [|cbn [fst snd]; auto].
  destruct (script_pass_invariant w (after_rerun ws) s1 Hfree1)
    as (Hfree2 & Hlog2 & Hfresh2).
  destruct (script_pass w (after_rerun ws) s1) as [[s2 log2] rerun'].
  cbn [fst snd] in *. split; [exact Hfree2|]. split; [|auto].
  apply Forall_app. split; assumption.
Qed.

Lemma session_invariant (steps : list (world * widgets)) (s : session_state) :
  context_free s ->
  context_free (session steps s)
  /\ Forall call_in_place (session_log steps s)
  /\ (fresh_ids s -> fresh_ids (session steps s)).
Proof.
  revert s. induction steps as [|[w ws] rest IH]; intros s Hfree.
  - cbn [session session_log]. split; [exact Hfree|]. split; [constructor | auto].
  - cbn [session session_log].
    destruct (script_run_invariant w ws s Hfree) as (Hfree1 & Hlog1 & Hfresh1).
    destruct (IH _ Hfree1) as (Hfree2 & Hlog2 & Hfresh2).
    split; [exact Hfree2|]. split; [|auto].
    apply Forall_app. split; assumption.
Qed.

(** C3. Placement invariant: if the conversation holds no system-context
    message before the injection step, then afterwards a system-context
    message, if there is one, is at index 0 and is the only one; and in a
    session that starts without one, after any number of runs of the script
    the conversation and the saved channel still hold none, so that every
    list handed to the model carries exactly one, at index 0. *)
Theorem context_placement (C : list BaseMessage) (D : pystr)
  (steps : list (world * widgets)) (s : session_state) :
  has_context C = false -> context_free s ->
  (has_context (ensureContext C D) = true -> context_in_place (ensureContext C D))
  /\ context_free (session steps s)
  /\ (forall messages,
        llm_call messages ∈ session_log steps s -> context_in_place messages).
Proof.
  intros HC Hfree. split; [by apply injection_in_place|].
  destruct (session_invariant steps s Hfree) as (Hfree' & Hlog & _).
  split; [exact Hfree'|].
  intros messages Hin. rewrite Forall_forall in Hlog. exact (Hlog _ Hin).
Qed.

Lemma context_placement_witness :
  context_in_place (ensureContext [Msg HumanMessage q1_question None] q1_text)
  /\ context_free (session two_turns initial_state)
  /\ (forall messages,
        llm_call messages ∈ session_log two_turns initial_state ->
        context_in_place messages).
Proof.
  destruct (context_placement [Msg HumanMessage q1_question None] q1_text
              two_turns initial_state) as (Hstep & Hfree & Hcalls).
  - reflexivity.
  - split; reflexivity.
  - split; [apply Hstep; vm_compute; reflexivity|]. split; assumption.
Defined.

(** The two turns, run: each call carries the document once, in front; the
    conversation kept in the session holds the four turns and no
    system-context message. *)
Example two_turns_run :
  session_log two_turns initial_state
  = [st_success (extracted_msg q1_text);
     st_info (loaded_msg q1_text);
     llm_call [system_msg q1_text;
               Msg HumanMessage q1_question (Some 0)];
     st_info (loaded_msg q1_text);
     st_info (loaded_msg q1_text);
     llm_call [system_msg q1_text;
               Msg HumanMessage q1_question (Some 0);
               Msg AIMessage (lit "Revenue grew 10%.") (Some 1);
               Msg HumanMessage q2_question (Some 2)];
     st_info (loaded_msg q1_text)]
  /\ chat_messages (session two_turns initial_state)
     = [Msg HumanMessage q1_question (Some 0);
        Msg AIMessage (lit "Revenue grew 10%.") (Some 1);
        Msg HumanMessage q2_question (Some 2);
        Msg AIMessage (lit "Revenue grew 10%.") (Some 3)].
Proof. split; vm_compute; reflexivity. Qed.

(** ** Reachable sessions *)

Lemma consistent_set_source pdf url s : consistent (set_source pdf url s).
Proof. split; reflexivity. Qed.

Lemma consistent_store (s1 : session_state) (text : pystr) (log ok failed : list event) :
  consistent s1 -> documents_processed s1 = false ->
  consistent (fst (if truthy text
                   then (set_extracted text s1, log ++ ok)
                   else (s1, log ++ failed))).
Proof.
  intros [Hflag Hchat] Hproc. destruct text as [|c text]; cbn; [by split|].
  split; [reflexivity | discriminate].
Qed.

Lemma consistent_pdf_upload_branch (uploaded : pdf_docs) (s : session_state) :
  consistent s -> consistent (fst (pdf_upload_branch uploaded s)).
Proof.
  intros Hs. unfold pdf_upload_branch.
  destruct (truthy_docs uploaded); [|exact Hs].
  set (s1 := if negb (pdf_docs_eqb (uploaded_pdf s) uploaded)
             then set_source uploaded None s else s).
  assert (H1 : consistent s1).
  { subst s1. destruct (negb _); [apply consistent_set_source | exact Hs]. }
  destruct (documents_processed s1) eqn:Hproc; cbn [negb]; [exact H1|].
  destruct (extract_pdf_text (uploaded_pdf s1)) as [text log].
  by apply consistent_store.
Qed.

Lemma consistent_web_url_branch (w : world) (url : pystr) (load_url : bool)
  (s : session_state) :
  consistent s -> consistent (fst (web_url_branch w url load_url s)).
Proof.
  intros Hs. unfold web_url_branch.
  destruct (truthy url && load_url); [|exact Hs].
  set (s1 := if negb (bool_decide (web_url s = Some url))
             then set_source pdf_none (Some url) s else s).
  assert (H1 : consistent s1).
  { subst s1. destruct (negb _); [apply consistent_set_source | exact Hs]. }
  destruct (documents_processed s1) eqn:Hproc; cbn [negb]; [exact H1|].
  destruct (extract_web_text (requests_get w) (web_url s1)) as [text log].
  by apply consistent_store.
Qed.

Lemma consistent_chat_input (w : world) (prompt : option pystr) (s : session_state) :
  consistent s -> consistent (fst (fst (chat_input w prompt s))).
Proof.
  intros Hs. destruct prompt as [prompt|]; [|exact Hs].
  destruct (truthy prompt) eqn:Hp; [|by unfold chat_input; rewrite Hp].
  destruct (ready s) eqn:Hready;
    [|by unfold chat_input, ready in *; rewrite Hp, Hready].
  apply truthy_true in Hp.
  rewrite (chat_input_turn w prompt s Hready Hp). cbn [fst].
  destruct Hs as [Hflag _]. split; [exact Hflag|].
  cbn [extracted_text]. intros E. unfold ready in Hready.
  rewrite E in Hready. discriminate.
Qed.

Lemma consistent_script_pass (w : world) (ws : widgets) (s : session_state) :
  consistent s -> consistent (fst (fst (script_pass w ws s))).
Proof.
  intros Hs. unfold script_pass.
  set (sidebar := match doc_type ws with
                  | PDF_Upload =>
                      pdf_upload_branch (pdf_list (map Some (file_uploader ws))) s
                  | Web_URL =>
                      web_url_branch w (text_input ws) (load_url_clicked ws) s
                  end).
  assert (H1 : consistent (fst sidebar)).
  { subst sidebar. destruct (doc_type ws);
      [by apply consistent_pdf_upload_branch | by apply consistent_web_url_branch]. }
  destruct sidebar as [s1 log1]. cbn [fst] in H1.
  destruct (truthy (extracted_text s1) && clear_document_clicked ws);
    [apply consistent_set_source|].
  destruct (new_chat_clicked ws).
  { cbn [fst]. destruct H1 as [Hflag _]. split; [exact Hflag | reflexivity]. }
  pose proof (consistent_chat_input w (chat_prompt ws) s1 H1) as H2.
  by destruct (chat_input w (chat_prompt ws) s1) as [[s2 log3] rerun].
Qed.

(** Every session that starts from the initial state keeps its flags in
    agreement, its uuid counter ahead of the ids in use, and its
    conversation free of system-context messages. *)
Lemma session_reachable (steps : list (world * widgets)) :
  consistent (session steps initial_state)
  /\ fresh_ids (session steps initial_state)
  /\ context_free (session steps initial_state).
Proof.
  split.
  - assert (H : consistent initial_state) by (split; reflexivity).
    revert H. generalize initial_state.
    induction steps as [|[w ws] rest IH]; intros s Hs; [exact Hs|].
    cbn [session]. apply IH. unfold script_run.
    pose proof (consistent_script_pass w ws s Hs) as H1.
    destruct (script_pass w ws s) as [[s1 log1] rerun]. cbn [fst] in H1.
    destruct rerun; [|exact H1].
    pose proof (consistent_script_pass w (after_rerun ws) s1 H1) as H2.
    by destruct (script_pass w (after_rerun ws) s1) as [[s2 log2] rerun'].
  - destruct (session_invariant steps initial_state) as (Hfree & _ & Hfresh);
      [split; reflexivity|].
    split; [|exact Hfree]. apply Hfresh. split; constructor.
Qed.

(** * Further properties *)

(** ** A turn, in full *)

Lemma assign_ids_snoc (u n : N) (ms : list BaseMessage) (m : BaseMessage) :
  Forall (has_id_below n) ms -> msg_id m = None ->
  assign_ids u (ms ++ [m])
  = (ms ++ [Msg (kind m) (content m) (Some u)], N.succ u).
Proof.
  intros Hall Hm. induction Hall as [|x ms (k & E & _) _ IH]; cbn.
  - by rewrite Hm.
  - by rewrite E, IH.
Qed.

Lemma index_by_id_other (i : nat) (merged : list BaseMessage)
  (d : gmap (option N) nat) (k : option N) :
  k ∉ map msg_id merged -> index_by_id i merged d !! k = d !! k.
Proof.
  revert i d. induction merged as [|m rest IH]; intros i d Hk; cbn; [done|].
  cbn in Hk. apply not_elem_of_cons in Hk as [Hne Hk].
  rewrite IH by exact Hk. by rewrite lookup_insert_ne.
Qed.

Lemma index_by_id_NoDup (j i : nat) (merged : list BaseMessage)
  (d : gmap (option N) nat) (m : BaseMessage) :
  NoDup (map msg_id merged) -> merged !! i = Some m ->
  index_by_id j merged d !! msg_id m = Some (j + i)%nat.
Proof.
  revert j i d. induction merged as [|x rest IH]; intros j i d Hnd Hi; [done|].
  cbn in Hnd. apply NoDup_cons in Hnd as [Hx Hnd]. cbn [index_by_id].
  destruct i as [|i]; cbn in Hi.
  - injection Hi as ->. rewrite index_by_id_other by exact Hx.
    rewrite lookup_insert_eq. f_equal. lia.
  - rewrite (IH (S j) i _ Hnd Hi). f_equal. lia.
Qed.

(** Reducing in messages that are already in place changes nothing. *)
Lemma merge_known (known rest merged : list BaseMessage)
  (d : gmap (option N) nat) :
  (forall m, m ∈ known -> exists i, d !! msg_id m = Some i /\ merged !! i = Some m) ->
  merge (known ++ rest) merged d = merge rest merged d.
Proof.
  induction known as [|m known IH]; intros H; [done|].
  cbn [app merge].
  destruct (H m) as (i & -> & Hi); [left|].
  rewrite list_insert_id by exact Hi.
  apply IH. intros m' Hm'. apply H. by right.
Qed.

Lemma turn_state_synced (prompt : pystr) (s : session_state) :
  synced s ->
  turn_state prompt s
  = graph_state s ++ [Msg HumanMessage prompt (Some (next_uuid s))]
  /\ turn_uuid prompt s = N.succ (next_uuid s).
Proof.
  intros (Hchat & Hids & Hnd).
  assert (Hc : Forall (has_id_below (next_uuid s)) (chat_messages s)).
  { destruct Hchat as [-> | ->]; [exact Hids | constructor]. }
  unfold turn_state, turn_uuid, turn_input, add_messages.
  rewrite (assign_ids_id _ _ _ Hids).
  rewrite (assign_ids_snoc _ _ _ (Msg HumanMessage prompt None) Hc eq_refl).
  cbn [fst snd kind content].
  rewrite merge_known.
  - cbn [merge msg_id]. by rewrite (index_by_id_fresh _ _ Hids).
  - intros m Hm. destruct Hchat as [E | E]; rewrite E in Hm; [|inversion Hm].
    apply list_elem_of_lookup in Hm as [i Hi]. exists i. split; [|exact Hi].
    by rewrite (index_by_id_NoDup 0 i _ _ m Hnd Hi).
Qed.

Lemma thread_ids_after_question (prompt : pystr) (s : session_state) :
  synced s ->
  Forall (has_id_below (N.succ (next_uuid s)))
         (graph_state s ++ [Msg HumanMessage prompt (Some (next_uuid s))]).
Proof.
  intros (_ & Hids & _). apply Forall_app. split.
  - eapply Forall_impl; [exact Hids|]. intros x. apply has_id_below_mono. lia.
  - constructor; [|constructor]. exists (next_uuid s). split; [reflexivity | lia].
Qed.

(** X1. A turn, in full.  In a session whose conversation agrees with the
    saved thread and holds no system-context message, a question asked on a
    ready document has this outcome: the model (if the client can be built)
    is called once, with the system-context message of the current document
    followed by the saved thread and the question; the conversation and the
    saved thread both become the saved thread followed by the question and
    one assistant message (the reply, or the error text); two uuids are used;
    nothing else in the session changes; and the run ends in a rerun. *)
Theorem turn_outcome (w : world) (prompt : pystr) (s : session_state) :
  synced s -> context_free s -> ready s = true -> prompt <> [] ->
  let question := Msg HumanMessage prompt (Some (next_uuid s)) in
  let handed := system_msg (extracted_text s) :: graph_state s ++ [question] in
  let thread :=
    graph_state s
    ++ [question;
        Msg AIMessage (answer_content w handed) (Some (N.succ (next_uuid s)))] in
  chat_input w (Some prompt) s
  = ({| uploaded_pdf := uploaded_pdf s;
        web_url := web_url s;
        chat_messages := thread;
        documents_processed := documents_processed s;
        extracted_text := extracted_text s;
        graph_state := thread;
        next_uuid := N.succ (N.succ (next_uuid s)) |},
     match ChatGroq w with Ok _ => [llm_call handed] | Raise _ => [] end,
     true).
Proof.
  intros Hsync Hfree Hready Hprompt question handed thread.
  rewrite (chat_input_turn w prompt s Hready Hprompt).
  destruct (turn_state_synced prompt s Hsync) as [-> ->].
  fold question.
  assert (E : ensureContext (graph_state s ++ [question]) (extracted_text s) = handed).
  { destruct (ensureContext_cases (graph_state s ++ [question]) (extracted_text s))
      as [(E & _) | (_ & [H | [H | H]])]; [exact E | | |].
    - unfold ready in Hready. rewrite H in Hready. discriminate.
    - by destruct (graph_state s).
    - exfalso. destruct Hfree as [_ Hg].
      unfold has_context in *. rewrite existsb_app, Hg in H. discriminate. }
  pose proof (thread_ids_after_question prompt s Hsync) as Hids. fold question in Hids.
  assert (Hstep : forall text,
             add_messages (N.succ (next_uuid s)) (graph_state s ++ [question])
               [Msg AIMessage text None]
             = (graph_state s
                ++ [question; Msg AIMessage text (Some (N.succ (next_uuid s)))],
                N.succ (N.succ (next_uuid s)))).
  { intros text.
    rewrite (add_messages_append _ _ (Msg AIMessage text None) Hids eq_refl).
    by rewrite <- (assoc_L (++)). }
  subst thread. unfold agent_node, answer_content, error_msg. rewrite E.
  destruct (ChatGroq w) as [[]|e]; [|by cbn [fst snd]; rewrite Hstep].
  destruct (llm_invoke w handed) as [reply|e]; cbn [fst snd]; by rewrite Hstep.
Qed.

Lemma turn_outcome_witness :
  chat_messages (fst (fst (chat_input world_up (Some q2_question) after_one_turn)))
  = [Msg HumanMessage q1_question (Some 0);
     Msg AIMessage (lit "Revenue grew 10%.") (Some 1);
     Msg HumanMessage q2_question (Some 2);
     Msg AIMessage (lit "Revenue grew 10%.") (Some 3)]
  /\ snd (fst (chat_input world_up (Some q2_question) after_one_turn))
     = [llm_call [system_msg q1_text;
                  Msg HumanMessage q1_question (Some 0);
                  Msg AIMessage (lit "Revenue grew 10%.") (Some 1);
                  Msg HumanMessage q2_question (Some 2)]].
Proof.
  rewrite (turn_outcome world_up q2_question after_one_turn).
  - split; vm_compute; reflexivity.
  - split; [by left|]. split.
    + vm_compute. repeat constructor; eexists; (split; [reflexivity | done]).
    + apply (bool_decide_unpack _). vm_compute. exact I.
  - split; reflexivity.
  - reflexivity.
  - discriminate.
Defined.

(** ** What every run of the script keeps *)

(** The thread after a question, whatever the conversation holds. *)
Lemma turn_thread (w : world) (prompt : pystr) (s : session_state) :
  synced s -> ready s = true -> prompt <> [] ->
  exists answer,
    let thread :=
      graph_state s
      ++ [Msg HumanMessage prompt (Some (next_uuid s));
          Msg AIMessage answer (Some (N.succ (next_uuid s)))] in
    chat_messages (fst (fst (chat_input w (Some prompt) s))) = thread
    /\ graph_state (fst (fst (chat_input w (Some prompt) s))) = thread
    /\ next_uuid (fst (fst (chat_input w (Some prompt) s)))
       = N.succ (N.succ (next_uuid s)).
Proof.
  intros Hsync Hready Hprompt.
  rewrite (chat_input_turn w prompt s Hready Hprompt).
  destruct (turn_state_synced prompt s Hsync) as [-> ->].
  destruct (agent_node_update w (extracted_text s)
              (graph_state s ++ [Msg HumanMessage prompt (Some (next_uuid s))]))
    as [answer ->].
  exists answer. cbn [fst snd chat_messages graph_state next_uuid].
  rewrite (add_messages_append _ _ (Msg AIMessage answer None)
             (thread_ids_after_question prompt s Hsync) eq_refl).
  cbn [fst snd kind content]. by rewrite <- (assoc_L (++)).
Qed.

(** An invariant of the sidebar moves and of the accepted turns is an
    invariant of the script. *)
Lemma session_induction (Inv : session_state -> Prop) :
  (forall s s', same_channel s s' -> Inv s -> Inv s') ->
  (forall w (prompt : pystr) s, Inv s -> ready s = true -> prompt <> [] ->
     Inv (fst (fst (chat_input w (Some prompt) s)))) ->
  forall steps s, Inv s -> Inv (session steps s).
Proof.
  intros Hside Hturn.
  assert (Hchat : forall w prompt s, Inv s -> Inv (fst (fst (chat_input w prompt s)))).
  { intros w [prompt|] s Hs; [|exact Hs].
    destruct (truthy prompt) eqn:Hp; [|by unfold chat_input; rewrite Hp].
    destruct (ready s) eqn:Hready;
      [|by unfold chat_input, ready in *; rewrite Hp, Hready].
    apply Hturn; [exact Hs | exact Hready | by apply truthy_true]. }
  assert (Hpass : forall w ws s, Inv s -> Inv (fst (fst (script_pass w ws s)))).
  { intros w ws s Hs. unfold script_pass.
    set (sidebar := match doc_type ws with
                    | PDF_Upload =>
                        pdf_upload_branch (pdf_list (map Some (file_uploader ws))) s
                    | Web_URL =>
                        web_url_branch w (text_input ws) (load_url_clicked ws) s
                    end).
    assert (H1 : same_channel s (fst sidebar)).
    { subst sidebar. destruct (doc_type ws);
        [apply pdf_upload_branch_sidebar | apply web_url_branch_sidebar]. }
    destruct sidebar as [s1 log1]. cbn [fst] in H1.
    pose proof (Hside s s1 H1 Hs) as Hs1.
    destruct (truthy (extracted_text s1) && clear_document_clicked ws).
    { cbn [fst]. apply (Hside s1); [|exact Hs1]. repeat split. by right. }
    destruct (new_chat_clicked ws).
    { cbn [fst]. apply (Hside s1); [|exact Hs1]. repeat split. by right. }
    pose proof (Hchat w (chat_prompt ws) s1 Hs1) as Hs2.
    by destruct (chat_input w (chat_prompt ws) s1) as [[s2 log3] rerun]. }
  induction steps as [|[w ws] rest IH]; intros s Hs; [exact Hs|].
  cbn [session]. apply IH. unfold script_run.
  pose proof (Hpass w ws s Hs) as Hs1.
  destruct (script_pass w ws s) as [[s1 log1] rerun]. cbn [fst] in Hs1.
  destruct rerun; [|exact Hs1].
  pose proof (Hpass w (after_rerun ws) s1 Hs1) as Hs2.
  by destruct (script_pass w (after_rerun ws) s1) as [[s2 log2] rerun'].
Qed.

Lemma alternating_app (xs ys : list BaseMessage) :
  alternating xs -> alternating ys -> alternating (xs ++ ys).
Proof.
  intros Hxs Hys.
  assert (H : forall n xs, (length xs <= n)%nat ->
                           alternating xs -> alternating (xs ++ ys)).
  { clear xs Hxs. induction n as [|n IH]; intros xs Hlen Hxs.
    - destruct xs; [exact Hys | cbn in Hlen; lia].
    - destruct xs as [|q [|a rest]]; [exact Hys | done |].
      destruct Hxs as (Hq & Ha & Hrest). cbn. repeat split; [exact Hq | exact Ha |].
      apply IH; [cbn in Hlen; lia | exact Hrest]. }
  by apply (H (length xs)).
Qed.

Lemma synced_same_channel (s s' : session_state) :
  same_channel s s' -> synced s -> synced s'.
Proof.
  intros (Hg & Hu & Hc) (Hchat & Hids & Hnd). unfold synced.
  rewrite Hg, Hu. split; [|by split].
  destruct Hc as [-> | ->]; [exact Hchat | by right].
Qed.

Lemma synced_turn (w : world) (prompt : pystr) (s : session_state) :
  synced s -> ready s = true -> prompt <> [] ->
  synced (fst (fst (chat_input w (Some prompt) s))).
Proof.
  intros Hsync Hready Hprompt.
  destruct (turn_thread w prompt s Hsync Hready Hprompt) as (answer & Hc & Hg & Hu).
  destruct Hsync as (_ & Hids & Hnd).
  unfold synced. rewrite Hc, Hg, Hu. split; [by left|]. split.
  - apply Forall_app. split.
    + eapply Forall_impl; [exact Hids|]. intros x. apply has_id_below_mono. lia.
    + repeat constructor; eexists; (split; [reflexivity | lia]).
  - rewrite map_app. apply NoDup_app. split; [exact Hnd|]. split.
    + intros k Hk Hnew. apply list_elem_of_fmap in Hk as (m & -> & Hm).
      rewrite Forall_forall in Hids. destruct (Hids m Hm) as (k & E & Hlt).
      rewrite E in Hnew. cbn in Hnew.
      apply elem_of_cons in Hnew as [Hnew | Hnew];
        [|apply list_elem_of_singleton in Hnew]; injection Hnew as ->; lia.
    + cbn. apply NoDup_cons. split; [|apply NoDup_singleton].
      intros Hin. apply list_elem_of_singleton in Hin. injection Hin. lia.
Qed.

Lemma session_keeps_thread (steps : list (world * widgets)) (s : session_state) :
  synced s /\ alternating (graph_state s) ->
  synced (session steps s) /\ alternating (graph_state (session steps s)).
Proof.
  apply (session_induction (fun s => synced s /\ alternating (graph_state s))).
  - intros s1 s2 Hch [Hsync Halt]. split; [by eapply synced_same_channel|].
    destruct Hch as (-> & _). exact Halt.
  - intros w prompt s1 [Hsync Halt] Hready Hprompt.
    split; [by apply synced_turn|].
    destruct (turn_thread w prompt s1 Hsync Hready Hprompt) as (answer & _ & Hg & _).
    rewrite Hg. apply alternating_app; [exact Halt | by cbn].
Qed.

(** X2. The thread invariant.  From a session whose conversation agrees with
    the saved thread, and whose thread is a sequence of question and answer
    pairs, every sequence of script runs leads to such a session again: the
    conversation is the saved thread or empty, the ids of the saved messages
    are pairwise distinct and below the counter, and thread and conversation
    alternate between a human and an assistant message. *)
Theorem thread_invariant (steps : list (world * widgets)) (s : session_state) :
  synced s -> alternating (graph_state s) ->
  synced (session steps s)
  /\ alternating (graph_state (session steps s))
  /\ alternating (chat_messages (session steps s)).
Proof.
  intros Hsync Halt.
  destruct (session_keeps_thread steps s (conj Hsync Halt)) as [Hsync' Halt'].
  split; [exact Hsync'|]. split; [exact Halt'|].
  destruct Hsync' as ([-> | ->] & _); [exact Halt' | exact I].
Qed.

Lemma thread_invariant_witness :
  synced (session two_turns initial_state)
  /\ alternating (graph_state (session two_turns initial_state))
  /\ alternating (chat_messages (session two_turns initial_state)).
Proof.
  apply (thread_invariant two_turns initial_state).
  - split; [by left|]. split; [constructor | apply NoDup_nil_2].
  - exact I.
Defined.

(** ** The chat display *)

Lemma display_alternating (messages : list BaseMessage) :
  alternating messages -> display_chat messages = map bubble_of messages.
Proof.
  intros Halt.
  assert (H : forall n ms, (length ms <= n)%nat -> alternating ms ->
                           display_chat ms = map bubble_of ms).
  { clear messages Halt. induction n as [|n IH]; intros ms Hlen Hms.
    - destruct ms; [reflexivity | cbn in Hlen; lia].
    - destruct ms as [|[qk qc qi] [|[ak ac ai] rest]]; [reflexivity | done |].
      destruct Hms as (Hq & Ha & Hrest). cbn in Hq, Ha. subst qk ak.
      unfold display_chat in *. cbn [omap list_omap map].
      rewrite (IH rest); [reflexivity | cbn in Hlen; lia | exact Hrest]. }
  by apply (H (length messages)).
Qed.

(** X3. Everything stored is shown.  Under the thread invariant, after any
    sequence of script runs the display loop writes one bubble for every
    message of the conversation, in order: a user bubble for a human message
    and an assistant bubble for an assistant message, with the message's
    content. *)
Theorem display_shows_conversation (steps : list (world * widgets))
  (s : session_state) :
  synced s -> alternating (graph_state s) ->
  display_chat (chat_messages (session steps s))
  = map bubble_of (chat_messages (session steps s)).
Proof.
  intros Hsync Halt. apply display_alternating.
  destruct (session_keeps_thread steps s (conj Hsync Halt)) as [Hsync' Halt'].
  destruct Hsync' as ([-> | ->] & _); [exact Halt' | exact I].
Qed.

Lemma display_shows_conversation_witness :
  display_chat (chat_messages (session two_turns initial_state))
  = [(user, q1_question); (assistant, lit "Revenue grew 10%.");
     (user, q2_question); (assistant, lit "Revenue grew 10%.")].
Proof.
  rewrite (display_shows_conversation two_turns initial_state).
  - vm_compute. reflexivity.
  - split; [by left|]. split; [constructor | apply NoDup_nil_2].
  - exact I.
Defined.

(** X4. What the display hides.  A message gets no bubble exactly when it is
    a system-context message; hence the message the agent node puts in front
    of the list would not show: the injected list is displayed like the
    conversation it was built from. *)
Theorem display_hides_context (C : list BaseMessage) (D : pystr) :
  (forall m, chat_bubble m = None <-> is_context m = true)
  /\ display_chat (ensureContext C D) = display_chat C.
Proof.
  assert (Hbubble : forall m, chat_bubble m = None <-> is_context m = true).
  { intros [k c i]. unfold chat_bubble, is_context, isinstance. cbn [kind content].
    destruct k, (contains document_content c); cbn; split; intros H;
      first [discriminate H | reflexivity]. }
  split; [exact Hbubble|].
  destruct (ensureContext_cases C D) as [(-> & _) | (-> & _)]; [|reflexivity].
  unfold display_chat. cbn [omap list_omap].
  destruct (Hbubble (system_msg D)) as [_ ->]; [reflexivity|].
  apply system_msg_is_context.
Qed.

(** ** New Chat *)

Lemma quiet_script_pass (w : world) (ws : widgets) (s : session_state) :
  quiet_sidebar ws ->
  fst (fst (script_pass w ws s))
  = (if new_chat_clicked ws then set_chat_messages [] s
     else fst (fst (chat_input w (chat_prompt ws) s)))
  /\ (new_chat_clicked ws = true -> snd (script_pass w ws s) = true)
  /\ (new_chat_clicked ws = false ->
      snd (script_pass w ws s) = snd (chat_input w (chat_prompt ws) s)).
Proof.
  intros (Hdoc & Hload & Hclear). unfold script_pass, web_url_branch.
  rewrite Hdoc, Hload, Hclear, !andb_false_r.
  destruct (new_chat_clicked ws); [by repeat split|].
  destruct (chat_input w (chat_prompt ws) s) as [[s2 log3] rerun].
  by repeat split.
Qed.

Lemma quiet_after_rerun (ws : widgets) :
  quiet_sidebar ws -> quiet_sidebar (after_rerun ws).
Proof. intros (Hdoc & _ & _). by repeat split. Qed.

Lemma quiet_script_run (w : world) (ws : widgets) (s : session_state) :
  quiet_sidebar ws ->
  fst (script_run w ws s)
  = (if new_chat_clicked ws then set_chat_messages [] s
     else fst (fst (chat_input w (chat_prompt ws) s))).
Proof.
  intros Hq. unfold script_run.
  destruct (quiet_script_pass w ws s Hq) as (Hstate & _ & _).
  destruct (script_pass w ws s) as [[s1 log1] rerun]. cbn [fst] in Hstate.
  destruct rerun; [|exact Hstate].
  destruct (quiet_script_pass w (after_rerun ws) s1 (quiet_after_rerun ws Hq))
    as (Hstate2 & _ & _).
  destruct (script_pass w (after_rerun ws) s1) as [[s2 log2] rerun'].
  cbn [fst after_rerun new_chat_clicked chat_prompt chat_input] in *.
  congruence.
Qed.

Lemma synced_emptied (s : session_state) :
  synced s -> synced (set_chat_messages [] s).
Proof. intros (_ & Hids & Hnd). split; [by right | by split]. Qed.

(** X5. New Chat does not reach the graph.  With the sidebar idle, pressing
    New Chat empties the conversation and nothing else; but the thread saved
    in the graph is kept, so that in a session whose conversation was that
    thread, asking a question after New Chat leaves the session exactly as
    asking it without New Chat would: the earlier messages are back in the
    conversation. *)
Theorem new_chat_is_undone_by_next_turn (w1 w2 : world) (ws1 ws2 : widgets)
  (prompt : pystr) (s : session_state) :
  quiet_sidebar ws1 -> new_chat_clicked ws1 = true ->
  quiet_sidebar ws2 -> new_chat_clicked ws2 = false ->
  chat_prompt ws2 = Some prompt -> prompt <> [] ->
  synced s -> chat_messages s = graph_state s -> ready s = true ->
  fst (script_run w1 ws1 s) = set_chat_messages [] s
  /\ session [(w1, ws1); (w2, ws2)] s = session [(w2, ws2)] s.
Proof.
  intros Hq1 Hnew1 Hq2 Hnew2 Hp2 Hprompt Hsync Hchat Hready.
  assert (E1 : fst (script_run w1 ws1 s) = set_chat_messages [] s).
  { by rewrite (quiet_script_run w1 ws1 s Hq1), Hnew1. }
  split; [exact E1|].
  cbn [session]. rewrite E1, !(quiet_script_run w2 ws2 _ Hq2), Hnew2, Hp2.
  rewrite (chat_input_turn w2 prompt s Hready Hprompt).
  rewrite (chat_input_turn w2 prompt (set_chat_messages [] s) Hready Hprompt).
  destruct (turn_state_synced prompt s Hsync) as [-> ->].
  destruct (turn_state_synced prompt _ (synced_emptied s Hsync)) as [-> ->].
  reflexivity.
Qed.

Lemma new_chat_is_undone_by_next_turn_witness :
  chat_messages (fst (script_run world_up (url_idle true false None) after_one_turn))
  = []
  /\ chat_messages
       (session [(world_up, url_idle true false None);
                 (world_up, url_idle false false (Some q2_question))]
                after_one_turn)
     = chat_messages after_one_turn
       ++ [Msg HumanMessage q2_question (Some 2);
           Msg AIMessage (lit "Revenue grew 10%.") (Some 3)].
Proof.
  destruct (new_chat_is_undone_by_next_turn world_up world_up
              (url_idle true false None) (url_idle false false (Some q2_question))
              q2_question after_one_turn) as [E1 E2].
  - by repeat split.
  - reflexivity.
  - by repeat split.
  - reflexivity.
  - reflexivity.
  - discriminate.
  - split; [by left|]. split.
    + vm_compute. repeat constructor; eexists; (split; [reflexivity | done]).
    + apply (bool_decide_unpack _). vm_compute. exact I.
  - reflexivity.
  - reflexivity.
  - rewrite E1, E2. split; vm_compute; reflexivity.
Defined.

(** ** Clear Document *)

(** X6. Clear Document on the URL source.  With the URL source selected and
    its load button not pressed, pressing Clear Document on a loaded document
    resets the source, the flags, the text and the conversation (the thread
    saved in the graph is not touched), and the rerun that follows changes
    nothing more: no document is ready afterwards. *)
Theorem clear_document_unloads_url (w : world) (ws : widgets) (s : session_state) :
  doc_type ws = Web_URL -> load_url_clicked ws = false ->
  clear_document_clicked ws = true -> ready s = true ->
  fst (script_run w ws s) = set_source pdf_none None s
  /\ ready (fst (script_run w ws s)) = false.
Proof.
  intros Hdoc Hload Hclear Hready.
  assert (E : fst (script_run w ws s) = set_source pdf_none None s).
  { unfold script_run, script_pass at 1, web_url_branch.
    rewrite Hdoc, Hload, Hclear, andb_false_r. unfold ready in Hready.
    rewrite Hready. cbn [andb].
    unfold script_pass, web_url_branch.
    cbn [after_rerun doc_type load_url_clicked clear_document_clicked
         new_chat_clicked chat_prompt].
    rewrite Hdoc, andb_false_r. reflexivity. }
  split; [exact E | by rewrite E].
Qed.

Lemma clear_document_unloads_url_witness :
  uploaded_pdf after_one_turn <> pdf_none
  /\ fst (script_run world_up (url_idle false true None) after_one_turn)
     = set_source pdf_none None after_one_turn
  /\ ready (fst (script_run world_up (url_idle false true None) after_one_turn))
     = false.
Proof.
  split; [discriminate|].
  apply (clear_document_unloads_url world_up (url_idle false true None)
           after_one_turn); reflexivity.
Defined.


(** X7. Clear Document on the PDF source.  While the uploader still holds the
    files of the loaded document, pressing Clear Document does not unload it:
    the rerun that follows finds the stored source reset, takes the upload
    for a new one and extracts it again.  What the press clears is the
    conversation. *)
Theorem clear_document_reloads_pdf (w : world) (ws : widgets) (s : session_state) :
  let uploaded := pdf_list (map Some (file_uploader ws)) in
  doc_type ws = PDF_Upload -> clear_document_clicked ws = true ->
  pdf_docs_eqb (uploaded_pdf s) uploaded = true ->
  documents_processed s = true -> ready s = true ->
  fst (extract_pdf_text uploaded) <> [] ->
  uploaded_pdf (fst (script_run w ws s)) = uploaded
  /\ web_url (fst (script_run w ws s)) = None
  /\ chat_messages (fst (script_run w ws s)) = []
  /\ documents_processed (fst (script_run w ws s)) = true
  /\ extracted_text (fst (script_run w ws s)) = fst (extract_pdf_text uploaded).
Proof.
  intros uploaded Hdoc Hclear Heq Hproc Hready Htext.
  apply truthy_true in Htext.
  assert (Hup : truthy_docs uploaded = true).
  { destruct (truthy_docs uploaded) eqn:E; [reflexivity|].
    unfold extract_pdf_text in Htext. rewrite E in Htext. discriminate. }
  assert (E : fst (script_run w ws s)
              = set_extracted (fst (extract_pdf_text uploaded))
                  (set_source uploaded None (set_source pdf_none None s))).
  { unfold script_run, script_pass at 1, pdf_upload_branch.
    rewrite Hdoc. fold uploaded. rewrite Hup, Heq. cbn [negb].
    rewrite Hproc. cbn [negb].
    unfold ready in Hready. rewrite Hready, Hclear. cbn [andb].
    unfold script_pass, pdf_upload_branch.
    cbn [after_rerun doc_type file_uploader clear_document_clicked
         new_chat_clicked chat_prompt].
    rewrite Hdoc. fold uploaded. rewrite Hup.
    cbn [set_source uploaded_pdf pdf_docs_eqb uploaded negb documents_processed].
    fold uploaded.
    destruct (extract_pdf_text uploaded) as [text log]. cbn [fst] in *.
    rewrite Htext. cbn [set_extracted extracted_text]. rewrite Htext, andb_false_r.
    reflexivity. }
  rewrite E. by repeat split.
Qed.

Lemma clear_document_reloads_pdf_witness :
  extracted_text
    (fst (script_run world_up
            {| doc_type := PDF_Upload; file_uploader := [report_pdf];
               text_input := []; load_url_clicked := false;
               clear_document_clicked := true; new_chat_clicked := false;
               chat_prompt := None |}
            after_one_turn))
  = q1_text.
Proof.
  destruct (clear_document_reloads_pdf world_up
              {| doc_type := PDF_Upload; file_uploader := [report_pdf];
                 text_input := []; load_url_clicked := false;
                 clear_document_clicked := true; new_chat_clicked := false;
                 chat_prompt := None |}
              after_one_turn) as (_ & _ & _ & _ & E);
    [reflexivity | reflexivity | reflexivity | reflexivity | reflexivity
     | discriminate |].
  rewrite E. vm_compute. reflexivity.
Defined.

(** ** Loading twice *)







(** After a fetch that failed the URL branch tries again, and the web may
    have changed: the first press loads nothing, the second loads the page. *)
Example failed_fetch_is_retried :
  extracted_text (fst (web_url_branch world_down report_url true initial_state)) = []
  /\ extracted_text
       (fst (web_url_branch world_up report_url true
               (fst (web_url_branch world_down report_url true initial_state))))
     = q1_text.
Proof. split; vm_compute; reflexivity. Qed.

(** ** [strip] *)

Lemma lstrip_starts_clean (s : pystr) : starts_clean (lstrip s).
Proof.
  induction s as [|c s IH]; cbn; [exact I|].
  destruct (is_whitespace c) eqn:E; [exact IH | exact E].
Qed.

Lemma lstrip_suffix (s : pystr) :
  exists p, s = p ++ lstrip s /\ all_whitespace p.
Proof.
  induction s as [|c s (p & IH & Hp)];
    [exists []; split; [reflexivity | constructor]|].
  cbn [lstrip]. destruct (is_whitespace c) eqn:E.
  - exists (c :: p). split; [by rewrite IH at 1 | by constructor].
  - exists []. split; [reflexivity | constructor].
Qed.

Lemma lstrip_clean (s : pystr) : starts_clean s -> lstrip s = s.
Proof. destruct s as [|c s]; cbn; [done|]. by intros ->. Qed.

Lemma lstrip_all_whitespace (s : pystr) : all_whitespace s -> lstrip s = [].
Proof. induction 1 as [|c s Hc _ IH]; cbn; [done|]. by rewrite Hc. Qed.

Lemma strip_infix (s : pystr) : exists p q, s = p ++ strip s ++ q.
Proof.
  destruct (lstrip_suffix s) as (p & Hs & _).
  destruct (lstrip_suffix (reverse (lstrip s))) as (q & Hr & _).
  exists p, (reverse q). unfold strip.
  rewrite <- reverse_app, <- Hr, reverse_involutive. exact Hs.
Qed.

Lemma strip_stripped (s : pystr) : stripped (strip s).
Proof.
  unfold stripped, strip. rewrite reverse_involutive.
  split; [|apply lstrip_starts_clean].
  destruct (lstrip_suffix (reverse (lstrip s))) as (q & Hr & _).
  pose proof (lstrip_starts_clean s) as Hclean.
  apply (f_equal reverse) in Hr. rewrite reverse_involutive, reverse_app in Hr.
  rewrite Hr in Hclean.
  by destruct (reverse (lstrip (reverse (lstrip s)))).
Qed.

Lemma strip_id (s : pystr) : stripped s -> strip s = s.
Proof.
  intros [H1 H2]. unfold strip.
  by rewrite (lstrip_clean s H1), (lstrip_clean _ H2), reverse_involutive.
Qed.

Lemma strip_all_whitespace (s : pystr) : all_whitespace s -> strip s = [].
Proof. intros H. unfold strip. by rewrite (lstrip_all_whitespace s H). Qed.

Lemma strip_Forall (P : char -> Prop) (s : pystr) :
  Forall P s -> Forall P (strip s).
Proof.
  intros H. destruct (strip_infix s) as (p & q & E). rewrite E in H.
  apply Forall_app in H as [_ H]. by apply Forall_app in H as [H _].
Qed.

(** ** More on PDF extraction *)

Lemma extract_files_warnings (files : list (option UploadedFile)) (text : pystr)
  (log : list event) :
  existsb file_raises files = false ->
  snd (extract_files files text log) = log ++ no_pages_warnings files.
Proof.
  revert text log. induction files as [|[f|] fs IH]; intros text log H.
  - cbn. by rewrite app_nil_r.
  - cbn [existsb] in H. apply orb_false_iff in H as [Hf Hfs].
    unfold file_raises in Hf. unfold no_pages_warnings in *.
    cbn [extract_files mbind list_bind].
    destruct (reader f) as [e| |pages]; [discriminate | |].
    + rewrite IH by exact Hfs. by rewrite <- (assoc_L (++)).
    + rewrite (extract_pages_ok pages text Hf). by rewrite IH.
  - cbn [existsb file_raises orb] in H. cbn [extract_files].
    rewrite (IH text log H). reflexivity.
Qed.

(** X9. The extracted PDF text is trimmed.  Whatever is uploaded, the text
    that [extract_pdf_text] returns neither starts nor ends with whitespace;
    and when nothing raises and every page text consists of whitespace only,
    it is the empty string, so that the PDF branch reports a failed
    extraction and leaves the document unprocessed. *)
Theorem extract_pdf_text_trimmed (docs : pdf_docs) (s : session_state) :
  stripped (fst (extract_pdf_text docs))
  /\ (truthy_docs docs = true ->
      existsb file_raises (files_to_process docs) = false ->
      Forall all_whitespace (extractable_texts (files_to_process docs)) ->
      fst (extract_pdf_text docs) = []
      /\ (pdf_docs_eqb (uploaded_pdf s) docs = false ->
          documents_processed (fst (pdf_upload_branch docs s)) = false
          /\ last (snd (pdf_upload_branch docs s))
             = Some (st_error (lit "Failed to extract text from PDF")))).
Proof.
  split.
  - unfold extract_pdf_text. destruct (truthy_docs docs); cbn [negb]; [|by split].
    destruct (extract_files (files_to_process docs) [] []) as [[text|e] log];
      [apply strip_stripped | by split].
  - intros Hdocs Hraise Hws.
    assert (E : fst (extract_pdf_text docs) = []).
    { unfold extract_pdf_text. rewrite Hdocs. cbn [negb].
      destruct (extract_files_ok (files_to_process docs) [] [] Hraise) as (log' & ->).
      cbn [fst app]. apply strip_all_whitespace.
      apply Forall_concat, Forall_fmap.
      eapply Forall_impl; [exact Hws|]. intros t Ht. cbn.
      apply Forall_app. split; [exact Ht | by repeat constructor]. }
    split; [exact E|]. intros Hnew.
    unfold pdf_upload_branch. rewrite Hdocs, Hnew.
    cbn [negb set_source documents_processed uploaded_pdf].
    destruct (extract_pdf_text docs) as [text log]. cbn [fst] in E. subst text.
    cbn [truthy fst snd set_source documents_processed].
    split; [reflexivity | apply last_snoc].
Qed.

Lemma extract_pdf_text_trimmed_witness :
  fst (extract_pdf_text (pdf_list [Some blank_pdf])) = []
  /\ documents_processed
       (fst (pdf_upload_branch (pdf_list [Some blank_pdf]) initial_state)) = false.
Proof.
  destruct (extract_pdf_text_trimmed (pdf_list [Some blank_pdf]) initial_state)
    as [_ H].
  destruct H as [E [Hproc _]]; [reflexivity | reflexivity | | reflexivity |].
  - repeat constructor.
  - split; [exact E | exact Hproc].
Defined.

(** X10. The warnings of an extraction.  When nothing raises, what
    [extract_pdf_text] shows is one warning for each uploaded file whose
    reader has no pages, naming the file, in upload order, and no error. *)
Theorem extract_pdf_text_warnings (docs : pdf_docs) :
  truthy_docs docs = true ->
  existsb file_raises (files_to_process docs) = false ->
  snd (extract_pdf_text docs) = no_pages_warnings (files_to_process docs).
Proof.
  intros Hdocs Hraise. unfold extract_pdf_text. rewrite Hdocs. cbn [negb].
  pose proof (extract_files_warnings (files_to_process docs) [] [] Hraise) as Hlog.
  destruct (extract_files_ok (files_to_process docs) [] [] Hraise) as (log' & E).
  rewrite E in *. exact Hlog.
Qed.

Lemma extract_pdf_text_warnings_witness :
  extract_pdf_text (pdf_list [Some scan_pdf; Some report_pdf])
  = (q1_text, [st_warning (lit "Could not read pages from scan.pdf")]).
Proof.
  pose proof (extract_pdf_text_warnings (pdf_list [Some scan_pdf; Some report_pdf])
                eq_refl eq_refl) as Hlog.
  destruct (extract_pdf_text (pdf_list [Some scan_pdf; Some report_pdf]))
    as [text log] eqn:E.
  cbn [snd] in Hlog. subst log. f_equal.
  apply (f_equal fst) in E. cbn [fst] in E. rewrite <- E. vm_compute. reflexivity.
Defined.

(** ** The text of a web page *)

Lemma single_spaced_app (a b : pystr) :
  single_spaced a = true -> single_spaced b = true ->
  (forall c d, last a = Some c -> head b = Some d ->
     (c =? SPACE) && (d =? SPACE) = false) ->
  single_spaced (a ++ b) = true.
Proof.
  intros Ha Hb Hjoin. induction a as [|x a IH]; [exact Hb|].
  cbn [single_spaced app] in *. apply andb_true_iff in Ha as [Hx Ha].
  apply andb_true_iff. split.
  - destruct a as [|y a]; cbn [app].
    + destruct b as [|d b]; [reflexivity|].
      by rewrite (Hjoin x d eq_refl eq_refl).
    + exact Hx.
  - apply IH; [exact Ha|]. intros c d Hc Hd. apply Hjoin; [|exact Hd].
    by destruct a.
Qed.

Lemma single_spaced_app_inv (a b : pystr) :
  single_spaced (a ++ b) = true ->
  single_spaced a = true /\ single_spaced b = true.
Proof.
  induction a as [|x a IH]; intros H; [by split|].
  cbn [single_spaced app] in *. apply andb_true_iff in H as [Hx H].
  destruct (IH H) as [Ha Hb]. split; [|exact Hb].
  apply andb_true_iff. split; [|exact Ha]. by destruct a.
Qed.

Lemma strip_single_spaced (s : pystr) :
  single_spaced s = true -> single_spaced (strip s) = true.
Proof.
  intros H. destruct (strip_infix s) as (p & q & E). rewrite E in H.
  apply single_spaced_app_inv in H as [_ H].
  by apply single_spaced_app_inv in H as [H _].
Qed.

Lemma splitlines_from_no_linebreak (cur s : pystr) :
  no_linebreak cur -> Forall no_linebreak (splitlines_from cur s).
Proof.
  assert (H : forall n s cur, (length s <= n)%nat -> no_linebreak cur ->
                              Forall no_linebreak (splitlines_from cur s)).
  { clear. induction n as [|n IH]; intros s cur Hlen Hcur.
    - destruct s; [|cbn in Hlen; lia]. cbn.
      destruct (truthy cur); by repeat constructor.
    - destruct s as [|c s']; cbn [splitlines_from].
      { destruct (truthy cur); by repeat constructor. }
      cbn in Hlen. destruct (is_linebreak c) eqn:Ec.
      + constructor; [exact Hcur|].
        destruct s' as [|d s'']; [constructor|]. cbn in Hlen.
        destruct ((c =? 13) && (d =? 10));
          apply IH; try constructor; cbn; lia.
      + apply IH; [lia|]. apply Forall_app. split; [exact Hcur | by repeat constructor]. }
  intros Hcur. by apply (H (length s)).
Qed.

Lemma splitlines_from_single (cur s : pystr) :
  no_linebreak s -> cur ++ s <> [] -> splitlines_from cur s = [cur ++ s].
Proof.
  intros Hs. revert cur. induction Hs as [|c s Hc _ IH]; intros cur Hne; cbn.
  - rewrite app_nil_r in *. by destruct cur.
  - rewrite Hc, IH; [by rewrite <- (assoc_L (++))|]. by destruct cur.
Qed.

Lemma split_from_cons (cur : pystr) (c d : char) (s : pystr) :
  split_from cur (c :: d :: s)
  = if (c =? SPACE) && (d =? SPACE) then cur :: split_from [] s
    else split_from (cur ++ [c]) (d :: s).
Proof. reflexivity. Qed.

Lemma split_from_Forall (P : char -> Prop) (cur s : pystr) :
  Forall P cur -> Forall P s -> Forall (Forall P) (split_from cur s).
Proof.
  assert (H : forall n s cur, (length s <= n)%nat -> Forall P cur -> Forall P s ->
                              Forall (Forall P) (split_from cur s)).
  { clear. induction n as [|n IH]; intros s cur Hlen Hcur Hs.
    - destruct s; [|cbn in Hlen; lia]. by repeat constructor.
    - destruct s as [|c [|d s'']].
      + by repeat constructor.
      + constructor; [|constructor]. apply Forall_app. by split.
      + rewrite split_from_cons.
        cbn in Hlen. apply Forall_cons in Hs as [Hc Hs].
        destruct ((c =? SPACE) && (d =? SPACE)).
        * constructor; [exact Hcur|]. apply Forall_cons in Hs as [_ Hs].
          apply IH; [lia | constructor | exact Hs].
        * apply IH; [cbn; lia | | exact Hs].
          apply Forall_app. split; [exact Hcur | by repeat constructor]. }
  intros Hcur Hs. by apply (H (length s)).
Qed.

Lemma split_from_single_spaced (cur s : pystr) :
  single_spaced (cur ++ take 1 s) = true ->
  Forall (fun part => single_spaced part = true) (split_from cur s).
Proof.
  assert (H : forall n s cur, (length s <= n)%nat ->
                              single_spaced (cur ++ take 1 s) = true ->
                              Forall (fun part => single_spaced part = true)
                                     (split_from cur s)).
  { clear. induction n as [|n IH]; intros s cur Hlen Hcur.
    - destruct s; [|cbn in Hlen; lia]. cbn in *. rewrite app_nil_r in Hcur.
      by repeat constructor.
    - destruct s as [|c [|d s'']].
      + cbn in *. rewrite app_nil_r in Hcur. by repeat constructor.
      + by repeat constructor.
      + rewrite split_from_cons. cbn [take] in Hcur.
        cbn in Hlen. destruct ((c =? SPACE) && (d =? SPACE)) eqn:E.
        * constructor; [by apply single_spaced_app_inv in Hcur as [Hcur _]|].
          apply IH; [lia|]. by destruct s''.
        * apply IH; [cbn; lia|]. cbn [take].
          apply single_spaced_app; [exact Hcur | reflexivity |].
          intros c' d' Hc' Hd'. rewrite last_snoc in Hc'.
          injection Hc' as <-. injection Hd' as <-. exact E. }
  intros Hcur. by apply (H (length s)).
Qed.

Lemma split_from_single (cur s : pystr) :
  single_spaced s = true -> split_from cur s = [cur ++ s].
Proof.
  revert cur. induction s as [|c s IH]; intros cur H.
  - cbn. by rewrite app_nil_r.
  - destruct s as [|d s'']; [reflexivity|]. rewrite split_from_cons.
    cbn [single_spaced] in H. apply andb_true_iff in H as [Hcd H].
    apply negb_true_iff in Hcd. rewrite Hcd.
    rewrite (IH (cur ++ [c]) H). by rewrite <- (assoc_L (++)).
Qed.

Lemma starts_clean_app (a b : pystr) :
  a <> [] -> starts_clean a -> starts_clean (a ++ b).
Proof. by destruct a. Qed.

Lemma ends_clean (x : pystr) (c : char) :
  starts_clean (reverse x) -> last x = Some c -> is_whitespace c = false.
Proof.
  intros H Hc. rewrite <- head_reverse in Hc.
  destruct (reverse x); [discriminate|]. by injection Hc as <-.
Qed.

Lemma not_whitespace_not_space (c d : char) :
  is_whitespace d = false -> (c =? SPACE) && (d =? SPACE) = false.
Proof.
  intros H. apply andb_false_iff. right. apply N.eqb_neq. by intros ->.
Qed.

Lemma collapse_chunks (text : pystr) :
  Forall clean_chunk
    (filter (fun chunk => truthy chunk = true)
       (map strip (concat (map split_double_space (map strip (splitlines text)))))).
Proof.
  assert (Hparts : Forall (fun part => single_spaced part = true /\ no_linebreak part)
                     (concat (map split_double_space (map strip (splitlines text))))).
  { apply Forall_concat, Forall_fmap, Forall_fmap.
    eapply Forall_impl; [apply (splitlines_from_no_linebreak [] text); constructor|].
    intros raw Hraw. cbn. apply Forall_and. split.
    - apply split_from_single_spaced. by destruct (strip raw) as [|? [|]].
    - apply split_from_Forall; [constructor | by apply strip_Forall]. }
  apply Forall_forall. intros chunk Hin.
  apply list_elem_of_filter in Hin as [Hne Hin]. apply truthy_true in Hne.
  apply list_elem_of_fmap in Hin as (part & -> & Hin).
  rewrite Forall_forall in Hparts. destruct (Hparts part Hin) as [Hss Hlb].
  split; [exact Hne|]. split; [apply strip_stripped|].
  split; [by apply strip_single_spaced | by apply strip_Forall].
Qed.

Lemma join_clean (chunks : list pystr) :
  Forall clean_chunk chunks ->
  stripped (join [SPACE] chunks)
  /\ single_spaced (join [SPACE] chunks) = true
  /\ no_linebreak (join [SPACE] chunks)
  /\ (chunks <> [] -> join [SPACE] chunks <> []).
Proof.
  induction 1 as [|x rest (Hne & [Hhead Htail] & Hss & Hlb) Hrest IH].
  - cbn. repeat split; [constructor | done].
  - destruct rest as [|y rest].
    + cbn [join]. by repeat split.
    + destruct IH as ([Jhead Jtail] & Jss & Jlb & Jne).
      specialize (Jne ltac:(done)).
      change (join [SPACE] (x :: y :: rest))
        with (x ++ [SPACE] ++ join [SPACE] (y :: rest)).
      set (J := join [SPACE] (y :: rest)) in *.
      split; [split|split; [|split]].
      * by apply starts_clean_app.
      * rewrite !reverse_app, <- !(assoc_L (++)).
        apply starts_clean_app; [|exact Jtail].
        intros E. apply (f_equal reverse) in E.
        by rewrite reverse_involutive in E.
      * apply single_spaced_app; [exact Hss | |].
        -- apply single_spaced_app; [reflexivity | exact Jss |].
           intros c d _ Hd. apply not_whitespace_not_space.
           destruct J; [done|]. by injection Hd as <-.
        -- intros c d Hc _. rewrite andb_comm.
           apply not_whitespace_not_space. exact (ends_clean x c Htail Hc).
      * apply Forall_app. split; [exact Hlb|].
        apply Forall_app. split; [by repeat constructor | exact Jlb].
      * intros _. by destruct x.
Qed.

Lemma collapse_whitespace_clean (text : pystr) :
  stripped (collapse_whitespace text)
  /\ single_spaced (collapse_whitespace text) = true
  /\ no_linebreak (collapse_whitespace text).
Proof.
  unfold collapse_whitespace.
  destruct (join_clean _ (collapse_chunks text)) as (_ & Hss & Hlb & _).
  split; [apply strip_stripped|].
  split; [by apply strip_single_spaced | by apply strip_Forall].
Qed.

Lemma collapse_whitespace_fixed (text : pystr) :
  stripped text -> single_spaced text = true -> no_linebreak text ->
  collapse_whitespace text = text.
Proof.
  intros Hstr Hss Hlb. destruct text as [|c text]; [reflexivity|].
  unfold collapse_whitespace, splitlines, split_double_space.
  rewrite (splitlines_from_single [] (c :: text) Hlb) by done.
  cbn [map app concat]. rewrite (strip_id _ Hstr).
  rewrite (split_from_single [] (c :: text) Hss).
  cbn [map app]. rewrite (strip_id _ Hstr).
  rewrite filter_cons_True by reflexivity.
  cbn [filter list_filter join]. by apply strip_id.
Qed.

(** X11. The text of a web page is single-spaced.  Whatever the GET yields,
    the text that [extract_web_text] returns neither starts nor ends with
    whitespace, holds no line break, and holds no two consecutive spaces. *)
Theorem extract_web_text_clean (get : pystr -> http_outcome) (url : option pystr) :
  stripped (fst (extract_web_text get url))
  /\ single_spaced (fst (extract_web_text get url)) = true
  /\ no_linebreak (fst (extract_web_text get url)).
Proof.
  assert (Hnil : stripped [] /\ single_spaced [] = true /\ no_linebreak []).
  { repeat split. constructor. }
  unfold extract_web_text. destruct url as [url|]; [|exact Hnil].
  destruct (truthy url); cbn [negb]; [|exact Hnil].
  destruct (get url) as [e | status_code reason soup_text]; [exact Hnil|].
  destruct (raise_for_status url status_code reason); [|exact Hnil].
  apply collapse_whitespace_clean.
Qed.

(** X12. Collapsing whitespace twice is collapsing it once: lines 85-89 leave
    a text they produced as it is. *)
Theorem collapse_whitespace_idempotent (text : pystr) :
  collapse_whitespace (collapse_whitespace text) = collapse_whitespace text.
Proof.
  destruct (collapse_whitespace_clean text) as (Hstr & Hss & Hlb).
  by apply collapse_whitespace_fixed.
Qed.

(** Tabs are kept inside a phrase; runs of spaces, line breaks and the
    whitespace around lines and phrases go. *)
Example collapse_whitespace_run :
  collapse_whitespace
    ([SPACE; SPACE] ++ lit "Revenue   grew" ++ [9] ++ lit "10%  " ++ [13; LF; LF]
     ++ lit " in Q1. ")
  = lit "Revenue grew" ++ [9] ++ lit "10% in Q1.".
Proof. vm_compute. reflexivity. Qed.

(** ** The size of the system message *)

(** X13. The system message is bounded.  Its content is the template, of 188
    characters, around the first 4000 characters of the document: it is never
    longer than 4188 characters, and the embedded snippet is a prefix of the
    document. *)
Theorem system_msg_size (D : pystr) :
  length (content (system_msg D)) = (188 + (length D `min` 4000))%nat
  /\ (length (content (system_msg D)) <= 4188)%nat
  /\ context_snippet D `prefix_of` D.
Proof.
  assert (E : length (content (system_msg D)) = (188 + (length D `min` 4000))%nat).
  { unfold system_msg, context_snippet. cbn [content].
    rewrite !length_app, length_take.
    change (length template_head) with 85%nat.
    change (length template_tail) with 103%nat. lia. }
  split; [exact E|]. split; [lia|].
  unfold context_snippet. apply prefix_take.
Qed.

(** ** The flags of a session *)

(** An invariant of the four ways in which the script changes the session is
    an invariant of the script. *)
Lemma session_induction_moves (Inv : session_state -> Prop) :
  (forall pdf url s, pdf = pdf_none \/ url = None -> Inv s -> Inv (set_source pdf url s)) ->
  (forall text s, text <> [] -> Inv s -> Inv (set_extracted text s)) ->
  (forall s, Inv s -> Inv (set_chat_messages [] s)) ->
  (forall w (prompt : pystr) s, ready s = true -> prompt <> [] -> Inv s ->
     Inv (fst (fst (chat_input w (Some prompt) s)))) ->
  forall steps s, Inv s -> Inv (session steps s).
Proof.
  intros Hsource Hextracted Hnew Hturn.
  assert (Hstore : forall s1 text (log ok failed : list event), Inv s1 ->
             Inv (fst (if truthy text
                       then (set_extracted text s1, log ++ ok)
                       else (s1, log ++ failed)))).
  { intros s1 [|c text] log ok failed Hs1; [exact Hs1|]. by apply Hextracted. }
  assert (Hpdf : forall uploaded s, Inv s -> Inv (fst (pdf_upload_branch uploaded s))).
  { intros uploaded s Hs. unfold pdf_upload_branch.
    destruct (truthy_docs uploaded); [|exact Hs].
    set (s1 := if negb (pdf_docs_eqb (uploaded_pdf s) uploaded)
               then set_source uploaded None s else s).
    assert (H1 : Inv s1).
    { subst s1. destruct (negb _); [apply Hsource; auto | exact Hs]. }
    destruct (documents_processed s1); cbn [negb]; [exact H1|].
    destruct (extract_pdf_text (uploaded_pdf s1)) as [text log]. by apply Hstore. }
  assert (Hweb : forall w url load s, Inv s -> Inv (fst (web_url_branch w url load s))).
  { intros w url load s Hs. unfold web_url_branch.
    destruct (truthy url && load); [|exact Hs].
    set (s1 := if negb (bool_decide (web_url s = Some url))
               then set_source pdf_none (Some url) s else s).
    assert (H1 : Inv s1).
    { subst s1. destruct (negb _); [apply Hsource; auto | exact Hs]. }
    destruct (documents_processed s1); cbn [negb]; [exact H1|].
    destruct (extract_web_text (requests_get w) (web_url s1)) as [text log].
    by apply Hstore. }
  assert (Hchat : forall w prompt s, Inv s -> Inv (fst (fst (chat_input w prompt s)))).
  { intros w [prompt|] s Hs; [|exact Hs].
    destruct (truthy prompt) eqn:Hp; [|by unfold chat_input; rewrite Hp].
    destruct (ready s) eqn:Hready;
      [|by unfold chat_input, ready in *; rewrite Hp, Hready].
    apply Hturn; [exact Hready | by apply truthy_true | exact Hs]. }
  assert (Hpass : forall w ws s, Inv s -> Inv (fst (fst (script_pass w ws s)))).
  { intros w ws s Hs. unfold script_pass.
    set (sidebar := match doc_type ws with
                    | PDF_Upload =>
                        pdf_upload_branch (pdf_list (map Some (file_uploader ws))) s
                    | Web_URL =>
                        web_url_branch w (text_input ws) (load_url_clicked ws) s
                    end).
    assert (H1 : Inv (fst sidebar)).
    { subst sidebar. destruct (doc_type ws); [by apply Hpdf | by apply Hweb]. }
    destruct sidebar as [s1 log1]. cbn [fst] in H1.
    destruct (truthy (extracted_text s1) && clear_document_clicked ws);
      [apply Hsource; auto|].
    destruct (new_chat_clicked ws); [by apply Hnew|].
    pose proof (Hchat w (chat_prompt ws) s1 H1) as H2.
    by destruct (chat_input w (chat_prompt ws) s1) as [[s2 log3] rerun]. }
  induction steps as [|[w ws] rest IH]; intros s Hs; [exact Hs|].
  cbn [session]. apply IH. unfold script_run.
  pose proof (Hpass w ws s Hs) as Hs1.
  destruct (script_pass w ws s) as [[s1 log1] rerun]. cbn [fst] in Hs1.
  destruct rerun; [|exact Hs1].
  pose proof (Hpass w (after_rerun ws) s1 Hs1) as Hs2.
  by destruct (script_pass w (after_rerun ws) s1) as [[s2 log2] rerun'].
Qed.

(** X14. The flags stay in agreement.  If in a session the document counts
    as processed exactly when a text is stored, there is no conversation
    without a text, and at most one of the two sources is stored, then the
    same holds after any sequence of script runs. *)
Theorem session_keeps_flags (steps : list (world * widgets)) (s : session_state) :
  consistent s -> one_source s ->
  consistent (session steps s) /\ one_source (session steps s).
Proof.
  intros Hc Ho.
  apply (session_induction_moves (fun s => consistent s /\ one_source s));
    [| | | |by split].
  - intros pdf url s' Hone _. split; [apply consistent_set_source | exact Hone].
  - intros text s' Htext [[_ _] Hone]. split; [|exact Hone].
    apply truthy_true in Htext. split; [by cbn; rewrite Htext|].
    cbn. intros ->. discriminate.
  - intros s' [[Hflag _] Hone]. by repeat split.
  - intros w prompt s' Hready Hprompt [[Hflag _] Hone].
    rewrite (chat_input_turn w prompt s' Hready Hprompt). cbn [fst].
    split; [|exact Hone]. split; [exact Hflag|].
    cbn [extracted_text]. intros E. unfold ready in Hready.
    rewrite E in Hready. discriminate.
Qed.

Lemma session_keeps_flags_witness :
  consistent (session two_turns initial_state)
  /\ one_source (session two_turns initial_state).
Proof.
  apply (session_keeps_flags two_turns initial_state).
  - split; [reflexivity | intros _; reflexivity].
  - by left.
Defined.

(** ** What the model is called with *)

Lemma no_llm_call_with_context (log : list event) :
  Forall no_llm_call log -> Forall call_with_context log.
Proof. intros H. eapply Forall_impl; [exact H|]. by intros []. Qed.

Lemma chat_input_calls (w : world) (prompt : option pystr) (s : session_state) :
  Forall call_with_context (snd (fst (chat_input w prompt s))).
Proof.
  destruct prompt as [prompt|]; [|constructor].
  destruct (truthy prompt) eqn:Hp;
    [|unfold chat_input; rewrite Hp; constructor].
  destruct (ready s) eqn:Hready;
    [|unfold chat_input, ready in *; rewrite Hp, Hready; by repeat constructor].
  apply truthy_true in Hp.
  rewrite (chat_input_turn w prompt s Hready Hp). cbn [fst snd].
  assert (Hctx : has_context (ensureContext (turn_state prompt s) (extracted_text s))
                 = true).
  { destruct (ensureContext_cases (turn_state prompt s) (extracted_text s))
      as [(-> & _) | (-> & [H | [H | H]])].
    - cbn. by rewrite system_msg_is_context.
    - unfold ready in Hready. rewrite H in Hready. discriminate.
    - exfalso. revert H. apply add_messages_nonempty.
      unfold turn_input. by destruct (chat_messages s).
    - exact H. }
  unfold agent_node. destruct (ChatGroq w); [|constructor].
  destruct (llm_invoke w _); by repeat constructor.
Qed.

Lemma script_pass_calls (w : world) (ws : widgets) (s : session_state) :
  Forall call_with_context (snd (fst (script_pass w ws s))).
Proof.
  unfold script_pass.
  set (sidebar := match doc_type ws with
                  | PDF_Upload =>
                      pdf_upload_branch (pdf_list (map Some (file_uploader ws))) s
                  | Web_URL =>
                      web_url_branch w (text_input ws) (load_url_clicked ws) s
                  end).
  assert (Hside : Forall no_llm_call (snd sidebar)).
  { subst sidebar. destruct (doc_type ws);
      [apply pdf_upload_branch_sidebar | apply web_url_branch_sidebar]. }
  destruct sidebar as [s1 log1]. cbn [snd] in Hside.
  set (log2 := if truthy (extracted_text s1)
               then log1 ++ [st_info (loaded_msg (extracted_text s1))] else log1).
  assert (Hlog2 : Forall call_with_context log2).
  { apply no_llm_call_with_context. subst log2.
    destruct (truthy (extracted_text s1)); [|exact Hside].
    apply Forall_app. split; [exact Hside | by repeat constructor]. }
  destruct (truthy (extracted_text s1) && clear_document_clicked ws); [exact Hlog2|].
  destruct (new_chat_clicked ws); [exact Hlog2|].
  pose proof (chat_input_calls w (chat_prompt ws) s1) as Hlog3.
  destruct (chat_input w (chat_prompt ws) s1) as [[s2 log3] rerun].
  cbn [fst snd] in *. apply Forall_app. by split.
Qed.

(** X15. The model is never called without the document.  Whatever the
    session and whatever the user does, every list handed to the model during
    a sequence of script runs holds a system-context message: the script
    reaches the agent node only with a non-empty text and a non-empty message
    list. *)
Theorem every_call_has_context (steps : list (world * widgets)) (s : session_state)
  (messages : list BaseMessage) :
  llm_call messages ∈ session_log steps s -> has_context messages = true.
Proof.
  assert (H : Forall call_with_context (session_log steps s)).
  { revert s. induction steps as [|[w ws] rest IH]; intros s; [constructor|].
    cbn [session_log]. apply Forall_app. split; [|apply IH].
    unfold script_run.
    pose proof (script_pass_calls w ws s) as H1.
    destruct (script_pass w ws s) as [[s1 log1] rerun]. cbn [fst snd] in *.
    destruct rerun; [|exact H1].
    pose proof (script_pass_calls w (after_rerun ws) s1) as H2.
    destruct (script_pass w (after_rerun ws) s1) as [[s2 log2] rerun'].
    cbn [fst snd] in *. apply Forall_app. by split. }
  intros Hin. rewrite Forall_forall in H. exact (H _ Hin).
Qed.

Lemma every_call_has_context_witness :
  has_context [system_msg q1_text; Msg HumanMessage q1_question (Some 0)] = true.
Proof.
  apply (every_call_has_context two_turns initial_state).
  vm_compute. do 2 right. left.
Defined.

(** ** A page without text *)

Lemma splitlines_from_Forall (P : char -> Prop) (cur s : pystr) :
  Forall P cur -> Forall P s -> Forall (Forall P) (splitlines_from cur s).
Proof.
  assert (H : forall n s cur, (length s <= n)%nat -> Forall P cur -> Forall P s ->
                              Forall (Forall P) (splitlines_from cur s)).
  { clear. induction n as [|n IH]; intros s cur Hlen Hcur Hs.
    - destruct s; [|cbn in Hlen; lia]. cbn.
      destruct (truthy cur); by repeat constructor.
    - destruct s as [|c s']; cbn [splitlines_from].
      { destruct (truthy cur); by repeat constructor. }
      cbn in Hlen. apply Forall_cons in Hs as [Hc Hs].
      destruct (is_linebreak c).
      + constructor; [exact Hcur|].
        destruct s' as [|d s'']; [constructor|]. cbn in Hlen.
        destruct ((c =? 13) && (d =? 10)).
        * apply Forall_cons in Hs as [_ Hs]. apply IH; [lia | constructor | exact Hs].
        * apply IH; [cbn; lia | constructor | exact Hs].
      + apply IH; [lia | | exact Hs].
        apply Forall_app. split; [exact Hcur | by repeat constructor]. }
  intros Hcur Hs. by apply (H (length s)).
Qed.

Lemma filter_truthy_nil (chunks : list pystr) :
  Forall (fun chunk => chunk = []) chunks ->
  filter (fun chunk => truthy chunk = true) chunks = [].
Proof.
  induction 1 as [|chunk chunks -> _ IH]; [reflexivity|].
  by rewrite filter_cons_False.
Qed.

Lemma collapse_whitespace_blank (text : pystr) :
  all_whitespace text -> collapse_whitespace text = [].
Proof.
  intros Hws. unfold collapse_whitespace.
  rewrite filter_truthy_nil; [reflexivity|].
  apply Forall_fmap, Forall_concat, Forall_fmap, Forall_fmap.
  eapply Forall_impl;
    [apply (splitlines_from_Forall _ [] text (Forall_nil_2 _) Hws)|].
  intros line Hline. cbn.
  rewrite (strip_all_whitespace line Hline). by repeat constructor.
Qed.

(** X16. A fetch that succeeds.  For a non-empty URL whose GET answers with a
    status outside 400..599, [extract_web_text] signals nothing and returns
    the collapsed text of the page.  If that page holds whitespace only, the
    result is the empty string, and loading it as a new URL leaves no
    document processed and reports a failed fetch. *)
Theorem extract_web_text_success (w : world) (url reason soup_text : pystr)
  (status_code : N) (s : session_state) :
  url <> [] ->
  requests_get w url = get_response status_code reason soup_text ->
  status_code < 400 \/ 600 <= status_code ->
  extract_web_text (requests_get w) (Some url)
  = (collapse_whitespace soup_text, [http_get url])
  /\ (all_whitespace soup_text -> web_url s <> Some url ->
      web_url_branch w url true s
      = (set_source pdf_none (Some url) s,
         [http_get url; st_error (lit "Failed to fetch web page")])).
Proof.
  intros Hurl Hget Hstatus. pose proof Hurl as Ht. apply truthy_true in Ht.
  assert (E : extract_web_text (requests_get w) (Some url)
              = (collapse_whitespace soup_text, [http_get url])).
  { unfold extract_web_text. rewrite Ht, Hget. cbn [negb].
    unfold raise_for_status.
    destruct Hstatus as [Hlow | Hhigh].
    - assert (H4 : (400 <=? status_code) = false) by (apply N.leb_gt; lia).
      assert (H5 : (500 <=? status_code) = false) by (apply N.leb_gt; lia).
      by rewrite H4, H5.
    - assert (H4 : (status_code <? 500) = false) by (apply N.ltb_ge; lia).
      assert (H5 : (status_code <? 600) = false) by (apply N.ltb_ge; lia).
      by rewrite H4, H5, !andb_false_r. }
  split; [exact E|]. intros Hws Hnew.
  unfold web_url_branch. rewrite Ht. cbn [andb].
  rewrite bool_decide_eq_false_2 by exact Hnew.
  cbn [negb set_source documents_processed web_url].
  rewrite E, (collapse_whitespace_blank soup_text Hws). reflexivity.
Qed.

Lemma extract_web_text_success_witness :
  web_url_branch world_blank report_url true initial_state
  = (set_source pdf_none (Some report_url) initial_state,
     [http_get report_url; st_error (lit "Failed to fetch web page")]).
Proof.
  destruct (extract_web_text_success world_blank report_url (lit "OK")
              [LF; SPACE; SPACE; 9; LF] 200 initial_state) as [_ H].
  - discriminate.
  - reflexivity.
  - left. reflexivity.
  - apply H; [by repeat constructor | discriminate].
Defined.
